(** * ChattingApp: the message synchronisation logic of [ChatPage.jsx]

    A shallow embedding of the state handling of the [ChatPage] component
    (src/components/ChatPage.jsx): the WebSocket callbacks [onopen],
    [onmessage], [onclose], the reconnection counter, and the local
    handlers [handleSendMessage], [handleFileUpload], [handleEditMessage]
    and [handleDeleteMessage].

    - A JavaScript object is a finite map from property names to values
      ([gmap string value]); reading a missing property gives [Undefined],
      object spread [{...m, k: v}] is map insertion over [m].
    - The frames of the protocol carry strings and booleans; the values
      modelled are [undefined], [null], booleans and strings.  A string is
      a sequence of code units below 256.
    - React state, refs, [localStorage] and the socket are fields of one
      [State] record; every handler is a function [State -> State].  The
      calls a handler makes to the outside ([console], [setError],
      [ws.send], [setTimeout], [navigate], ...) are appended, in program
      order, to the [trace] field.
    - The socket callbacks read [currentUser] and [selectedUser] of the
      render that created the socket; the effect at line 409 recreates the
      socket when either changes, so they are read from the state.
    - Clock reads, the outcome of REST calls and of the [WebSocket]
      constructor are inputs of the handlers.  A handler that awaits a
      REST call is one step: it resumes in the state it left, with the
      outcome of the call.
    - A [setMessages] updater that throws (a TypeError while it builds an
      entry) returns [None] and leaves the list as it was. *)

From Stdlib Require Import ZArith String Ascii List Bool Lia.
From stdpp Require Import base option list gmap strings.

Local Open Scope string_scope.

(** ** JavaScript values *)

Module Js.

Inductive value :=
| Undefined
| Null
| Bool (b : bool)
| Str (s : string).

#[global] Instance value_eq_dec : EqDecision value.
Proof. solve_decision. Defined.

(** [ToBoolean]: [undefined], [null], [false] and the empty string are
    falsy. *)
Definition truthy (v : value) : bool :=
  match v with
  | Undefined | Null => false
  | Bool b => b
  | Str s => negb (String.eqb s "")
  end.

(** [a || b] *)
Definition or (a b : value) : value := if truthy a then a else b.

(** [a === b] *)
Definition seq (a b : value) : bool := bool_decide (a = b).

(** [!a] *)
Definition not (a : value) : bool := negb (truthy a).

(** Conversion to string, as a template literal does it. *)
Definition toString (v : value) : string :=
  match v with
  | Undefined => "undefined"
  | Null => "null"
  | Bool true => "true"
  | Bool false => "false"
  | Str s => s
  end.

(** Property read [o.k]. *)
Definition get (o : gmap string value) (k : string) : value :=
  default Undefined (o !! k).

(** Optional chaining [o?.k] on an object that may be [null]. *)
Definition getq (o : option (gmap string value)) (k : string) : value :=
  match o with
  | Some m => get m k
  | None => Undefined
  end.

End Js.

Import Js.

Abbreviation obj := (gmap string value).
Infix "||:" := Js.or (at level 50, left associativity).
Infix "===" := Js.seq (at level 70, no associativity).
Notation "o @. k" := (Js.get o k) (at level 9, k at level 1, format "o @. k").
Notation "o ?. k" := (Js.getq o k) (at level 9, k at level 1, format "o ?. k").

(** ** Strings: [trim], [includes] and the regular expressions of the file *)

Module Text.

Definition code (c : ascii) : N := N_of_ascii c.

(** White space and line terminators below code unit 256: TAB, LF, VT,
    FF, CR, SPACE and NO-BREAK SPACE. *)
Definition isWhite (c : ascii) : bool :=
  let n := code c in
  ((9 <=? n) && (n <=? 13) || (n =? 32) || (n =? 160))%N.

Fixpoint trimStart (s : string) : string :=
  match s with
  | EmptyString => EmptyString
  | String c r => if isWhite c then trimStart r else s
  end.

Fixpoint trimEnd (s : string) : string :=
  match s with
  | EmptyString => EmptyString
  | String c r =>
      match trimEnd r with
      | EmptyString => if isWhite c then EmptyString else String c EmptyString
      | r' => String c r'
      end
  end.

(** [s.trim()] *)
Definition trim (s : string) : string := trimEnd (trimStart s).

Fixpoint allWhite (s : string) : bool :=
  match s with
  | EmptyString => true
  | String c r => isWhite c && allWhite r
  end.

(** [hay.includes(needle)] *)
Fixpoint includes (needle hay : string) : bool :=
  String.prefix needle hay
  || match hay with
     | EmptyString => false
     | String _ r => includes needle r
     end.

Definition isDigit (c : ascii) : bool := ((48 <=? code c) && (code c <=? 57))%N.

(** [[0-9a-f]] under the [i] flag *)
Definition isHex (c : ascii) : bool :=
  let n := code c in
  (isDigit c || (97 <=? n) && (n <=? 102) || (65 <=? n) && (n <=? 70))%N.

(** The atoms of the identifier pattern. *)
Inductive atom :=
| Hex          (* [0-9a-f] *)
| Dash         (* - *)
| Version      (* [1-5] *)
| Variant.     (* [89ab] *)

Definition inAtom (a : atom) (c : ascii) : bool :=
  let n := code c in
  match a with
  | Hex => isHex c
  | Dash => (n =? 45)%N
  | Version => ((49 <=? n) && (n <=? 53))%N
  | Variant => ((n =? 56) || (n =? 57) || (n =? 97) || (n =? 98) || (n =? 65) || (n =? 66))%N
  end.

(** An anchored match [^ a1 a2 ... an $]. *)
Fixpoint matchAtoms (p : list atom) (s : string) : bool :=
  match p, s with
  | [], EmptyString => true
  | a :: p', String c s' => inAtom a c && matchAtoms p' s'
  | _, _ => false
  end.

(** [/^[0-9a-f]{8}-[0-9a-f]{4}-[1-5][0-9a-f]{3}-[89ab][0-9a-f]{3}-[0-9a-f]{12}$/i] *)
Definition uuidRegex : list atom :=
  repeat Hex 8 ++ [Dash] ++ repeat Hex 4 ++ [Dash] ++
  [Version] ++ repeat Hex 3 ++ [Dash] ++
  [Variant] ++ repeat Hex 3 ++ [Dash] ++ repeat Hex 12.

Definition lower (c : ascii) : ascii :=
  let n := code c in
  if ((65 <=? n) && (n <=? 90))%N then ascii_of_N (n + 32) else c.

Fixpoint eqCI (a b : string) : bool :=
  match a, b with
  | EmptyString, EmptyString => true
  | String x a', String y b' => Ascii.eqb (lower x) (lower y) && eqCI a' b'
  | _, _ => false
  end.

(** [/suf$/i] for a literal [suf]: some tail of [s] is [suf] up to case. *)
Fixpoint endsWithCI (suf s : string) : bool :=
  eqCI suf s
  || match s with
     | EmptyString => false
     | String _ r => endsWithCI suf r
     end.

(** [/\.(jpg|jpeg|png|gif)$/i] *)
Definition imageRegex (s : string) : bool :=
  endsWithCI ".jpg" s || endsWithCI ".jpeg" s || endsWithCI ".png" s || endsWithCI ".gif" s.

(** [/\.(mp4|webm|ogg)$/i] *)
Definition videoRegex (s : string) : bool :=
  endsWithCI ".mp4" s || endsWithCI ".webm" s || endsWithCI ".ogg" s.

End Text.

(** [isValidUUID], ChatPage.jsx line 40. *)
Definition isValidUUID (id : value) : bool :=
  match id with
  | Str s => Text.matchAtoms Text.uuidRegex s
  | _ => false
  end.

(** [generateMessageKey], line 46. *)
Definition generateMessageKey (msg : obj) : value :=
  Str (toString (msg@."message_id" ||: msg@."temp_id") ++ "-" ++
       toString msg@."sender_id" ++ "-" ++
       toString msg@."receiver_id" ++ "-" ++
       toString msg@."created_at").

(** ** The component's state *)

(** [WebSocket.readyState] *)
Inductive ReadyState := CONNECTING | OPEN | CLOSING | CLOSED.

#[global] Instance ReadyState_eq_dec : EqDecision ReadyState.
Proof. solve_decision. Defined.

(** The calls a handler makes, in program order. *)
Inductive Effect :=
| ConsoleLog (msg : string)
| ConsoleWarn (msg : string)
| ConsoleError (msg : string)
| SetError (v : value)
| SetMessages
| UpdaterThrew
| SetUsers
| WsNew
| WsSend (frame : obj)
| WsClose
| SetTimeout (ms : Z)
| RemoveToken
| Navigate (path : string)
| FetchMessages
| HttpPut (messageId : value) (text : string)
| HttpDelete (messageId : value)
| HttpUpload (file : string).

#[global] Instance Effect_eq_dec : EqDecision Effect.
Proof. solve_decision. Defined.

Record State := mkState {
  currentUser : option obj;
  selectedUser : option obj;
  users : list obj;
  message : string;
  messages : list obj;
  editingMessageId : value;
  editText : string;
  uploadingFile : bool;
  connectionStatus : string;
  error : value;
  token : option string;            (* localStorage.getItem("token") *)
  ws : option ReadyState;           (* ws.current, with its readyState *)
  reconnectAttempts : Z;            (* reconnectAttempts.current *)
  files : list string;              (* fileInputRef.current.files *)
  trace : list Effect
}.

(** What a handler reads from outside the component. *)
Record Env := mkEnv {
  dateNow : string;                 (* Date.now().toString() *)
  dateISO : string;                 (* new Date().toISOString() *)
  wsCtorOk : bool                   (* new WebSocket(WS_URL) does not throw *)
}.

(** The outcome of a REST call: a response body, or a failure with
    [error.response?.data?.detail]. *)
Inductive Rest :=
| RestOk (data : obj)
| RestFail (detail : value).

Definition set_users (x : list obj) (st : State) : State :=
  mkState (currentUser st) (selectedUser st) x (message st) (messages st)
    (editingMessageId st) (editText st) (uploadingFile st) (connectionStatus st)
    (error st) (token st) (ws st) (reconnectAttempts st) (files st) (trace st).

Definition set_message (x : string) (st : State) : State :=
  mkState (currentUser st) (selectedUser st) (users st) x (messages st)
    (editingMessageId st) (editText st) (uploadingFile st) (connectionStatus st)
    (error st) (token st) (ws st) (reconnectAttempts st) (files st) (trace st).

Definition set_messages (x : list obj) (st : State) : State :=
  mkState (currentUser st) (selectedUser st) (users st) (message st) x
    (editingMessageId st) (editText st) (uploadingFile st) (connectionStatus st)
    (error st) (token st) (ws st) (reconnectAttempts st) (files st) (trace st).

Definition set_editingMessageId (x : value) (st : State) : State :=
  mkState (currentUser st) (selectedUser st) (users st) (message st) (messages st)
    x (editText st) (uploadingFile st) (connectionStatus st)
    (error st) (token st) (ws st) (reconnectAttempts st) (files st) (trace st).

Definition set_editText (x : string) (st : State) : State :=
  mkState (currentUser st) (selectedUser st) (users st) (message st) (messages st)
    (editingMessageId st) x (uploadingFile st) (connectionStatus st)
    (error st) (token st) (ws st) (reconnectAttempts st) (files st) (trace st).

Definition set_uploadingFile (x : bool) (st : State) : State :=
  mkState (currentUser st) (selectedUser st) (users st) (message st) (messages st)
    (editingMessageId st) (editText st) x (connectionStatus st)
    (error st) (token st) (ws st) (reconnectAttempts st) (files st) (trace st).

Definition set_connectionStatus (x : string) (st : State) : State :=
  mkState (currentUser st) (selectedUser st) (users st) (message st) (messages st)
    (editingMessageId st) (editText st) (uploadingFile st) x
    (error st) (token st) (ws st) (reconnectAttempts st) (files st) (trace st).

Definition set_error (x : value) (st : State) : State :=
  mkState (currentUser st) (selectedUser st) (users st) (message st) (messages st)
    (editingMessageId st) (editText st) (uploadingFile st) (connectionStatus st)
    x (token st) (ws st) (reconnectAttempts st) (files st) (trace st).

Definition set_token (x : option string) (st : State) : State :=
  mkState (currentUser st) (selectedUser st) (users st) (message st) (messages st)
    (editingMessageId st) (editText st) (uploadingFile st) (connectionStatus st)
    (error st) x (ws st) (reconnectAttempts st) (files st) (trace st).

Definition set_ws (x : option ReadyState) (st : State) : State :=
  mkState (currentUser st) (selectedUser st) (users st) (message st) (messages st)
    (editingMessageId st) (editText st) (uploadingFile st) (connectionStatus st)
    (error st) (token st) x (reconnectAttempts st) (files st) (trace st).

Definition set_reconnectAttempts (x : Z) (st : State) : State :=
  mkState (currentUser st) (selectedUser st) (users st) (message st) (messages st)
    (editingMessageId st) (editText st) (uploadingFile st) (connectionStatus st)
    (error st) (token st) (ws st) x (files st) (trace st).

Definition set_files (x : list string) (st : State) : State :=
  mkState (currentUser st) (selectedUser st) (users st) (message st) (messages st)
    (editingMessageId st) (editText st) (uploadingFile st) (connectionStatus st)
    (error st) (token st) (ws st) (reconnectAttempts st) x (trace st).

Definition set_trace (x : list Effect) (st : State) : State :=
  mkState (currentUser st) (selectedUser st) (users st) (message st) (messages st)
    (editingMessageId st) (editText st) (uploadingFile st) (connectionStatus st)
    (error st) (token st) (ws st) (reconnectAttempts st) (files st) x.

(** ** The React and browser calls *)

Definition emit (e : Effect) (st : State) : State :=
  set_trace (trace st ++ [e]) st.

Definition consoleLog (msg : string) : State -> State := emit (ConsoleLog msg).
Definition consoleWarn (msg : string) : State -> State := emit (ConsoleWarn msg).
Definition consoleError (msg : string) : State -> State := emit (ConsoleError msg).

Definition setError (v : value) (st : State) : State :=
  emit (SetError v) (set_error v st).

(** [setMessages(updater)]: the updater is applied to the previous list;
    an updater that throws leaves the list as it was. *)
Definition setMessages (updater : list obj -> option (list obj)) (st : State) : State :=
  match updater (messages st) with
  | Some l => set_messages l (emit SetMessages st)
  | None => emit UpdaterThrew (emit SetMessages st)
  end.

Definition setUsers (updater : list obj -> list obj) (st : State) : State :=
  set_users (updater (users st)) (emit SetUsers st).

Definition removeToken (st : State) : State :=
  emit RemoveToken (set_token None st).

Definition navigate (path : string) : State -> State := emit (Navigate path).

(** [ws.current?.readyState === WebSocket.OPEN] *)
Definition wsOpen (st : State) : bool := bool_decide (ws st = Some OPEN).

Definition wsSend (frame : obj) : State -> State := emit (WsSend frame).

(** [ws.current.close()] *)
Definition wsClose (st : State) : State :=
  emit WsClose (set_ws (match ws st with
                        | Some CLOSED => Some CLOSED
                        | Some _ => Some CLOSING
                        | None => None
                        end) st).

(** An object literal [{k1: v1, ..., kn: vn}] and a spread
    [{...base, k1: v1, ..., kn: vn}]: later properties overwrite. *)
Definition spread (base : obj) (props : list (string * value)) : obj :=
  foldl (fun o kv => <[kv.1 := kv.2]> o) base props.

Definition literal (props : list (string * value)) : obj := spread ∅ props.

(** [!o] for a value that is an object or [null]. *)
Definition isNull (o : option obj) : bool :=
  match o with
  | Some _ => false
  | None => true
  end.

(** ** The WebSocket connection (lines 217-424) *)

(** [connectWebSocket], line 217.  The handlers it installs are the
    functions [onopen], [onmessage], [onerror] and [onclose] below. *)
Definition connectWebSocket (env : Env) (st : State) : State :=
  if isNull (currentUser st) || wsOpen st then
    consoleLog "Skipping WebSocket connection: already open or no currentUser" st
  else
    let st := consoleLog "Initiating WebSocket connection to:" st in
    if wsCtorOk env then
      emit WsNew (set_ws (Some CONNECTING) st)
    else
      setError (Str "Failed to establish WebSocket connection.")
        (set_connectionStatus "error"
           (consoleError "Error creating WebSocket connection:" st)).

(** [ws.current.onopen], line 227. *)
Definition onopen (st : State) : State :=
  let st := consoleLog "WebSocket connected successfully" st in
  let st := set_connectionStatus "connected" st in
  let st := set_reconnectAttempts 0 st in
  match token st with
  | Some t =>
      if String.eqb t "" then
        navigate "/" (wsClose (setError (Str "Session expired. Please log in again.")
          (consoleError "No token available for WebSocket auth" st)))
      else
        wsSend (literal [("type", Str "auth"); ("token", Str t)])
          (consoleLog "Sending auth token:" st)
  | None =>
      navigate "/" (wsClose (setError (Str "Session expired. Please log in again.")
        (consoleError "No token available for WebSocket auth" st)))
  end.

(** [Math.min(1000 * Math.pow(2, attempts), 10000)], line 391. *)
Definition reconnectDelay (attempts : Z) : Z :=
  Z.min (1000 * 2 ^ attempts) 10000.

(** [ws.current.onclose], line 385. *)
Definition onclose (st : State) : State :=
  let st := consoleLog "WebSocket disconnected:" st in
  let st := set_connectionStatus "disconnected" st in
  if (reconnectAttempts st <? 5)%Z then
    let st := set_reconnectAttempts (reconnectAttempts st + 1) st in
    let timeout := reconnectDelay (reconnectAttempts st) in
    emit (SetTimeout timeout) (consoleLog "Scheduling reconnect" st)
  else
    setError (Str "Failed to reconnect to WebSocket. Polling enabled to keep messages updated.")
      (consoleError "Max reconnection attempts reached" st).

(** The callback handed to [setTimeout] at line 393. *)
Definition reconnectTimer (env : Env) (st : State) : State :=
  connectWebSocket env (consoleLog "Attempting to reconnect..." st).

(** [ws.current.onerror], line 379. *)
Definition onerror (st : State) : State :=
  setError (Str "WebSocket connection error. Attempting to reconnect...")
    (set_connectionStatus "error" (consoleError "WebSocket error:" st)).

(** ** Merging an inbound "message" frame (lines 276-320) *)

(** The test of [prev.some] and [prev.map], lines 279 and 284. *)
Definition sameMessage (data m : obj) : bool :=
  (truthy m@."message_id" && (m@."message_id" === data@."message_id"))
  || (truthy m@."temp_id" && (m@."temp_id" === data@."temp_id")).

(** [url?.match(image) ? "image" : url?.match(video) ? "video" : "file"],
    lines 292 and 313; [None] is the TypeError of calling [match] on a
    value that has none. *)
Definition mediaTypeOf (url : value) : option value :=
  match url with
  | Undefined | Null => Some (Str "file")
  | Str s =>
      Some (Str (if Text.imageRegex s then "image"
                 else if Text.videoRegex s then "video" else "file"))
  | Bool _ => None
  end.

(** The object built at lines 285-302 for an entry [m] that is already
    in the list. *)
Definition updateEntry (cu : option obj) (data m : obj) : option obj :=
  let known := data@."media_type" ||: m@."media_type" in
  media_type ← (if truthy known then Some known else mediaTypeOf data@."media_url");
  Some (spread m
    [ ("message_id", data@."message_id" ||: m@."message_id");
      ("temp_id", if truthy data@."temp_id" then Undefined else m@."temp_id");
      ("text", data@."text" ||: m@."text");
      ("media_url", data@."media_url" ||: m@."media_url");
      ("media_type", media_type);
      ("file_name", data@."file_name" ||: m@."file_name");
      ("created_at", data@."created_at" ||: m@."created_at");
      ("sender_id", data@."sender_id");
      ("receiver_id", data@."receiver_id");
      ("sender_name", data@."sender_name" ||: m@."sender_name" ||: cu?."username");
      ("edited", data@."edited" ||: m@."edited" ||: Bool false);
      ("key", generateMessageKey data) ]).

(** The object built at lines 307-318 for a message that is not in the
    list. *)
Definition newEntry (cu su : option obj) (data : obj) : option obj :=
  sender_name ←
    (if truthy data@."sender_name" then Some data@."sender_name"
     else if data@."sender_id" === cu?."id" then
       match cu with
       | Some c => Some c@."username"
       | None => None
       end
     else Some su?."username");
  media_type ←
    (if truthy data@."media_type" then Some data@."media_type"
     else mediaTypeOf data@."media_url");
  Some (spread data
    [ ("message_id", data@."message_id" ||: data@."temp_id");
      ("temp_id", if truthy data@."temp_id" then Undefined else data@."temp_id");
      ("sender_name", sender_name);
      ("media_type", media_type);
      ("edited", data@."edited" ||: Bool false);
      ("key", generateMessageKey data) ]).

(** The updater passed to [setMessages] at line 276 (its two
    [console.log] calls are not recorded). *)
Definition mergeMessage (cu su : option obj) (data : obj) (prev : list obj)
  : option (list obj) :=
  if existsb (sameMessage data) prev then
    mapM (fun m => if sameMessage data m then updateEntry cu data m else Some m) prev
  else
    new ← newEntry cu su data;
    Some (prev ++ [new])%list.

(** The updater of the "edit" case, line 333. *)
Definition applyEdit (env : Env) (data : obj) (prev : list obj) : list obj :=
  map (fun m =>
         if m@."message_id" === data@."message_id" then
           spread m [ ("text", data@."text");
                      ("edited", Bool true);
                      ("edited_at", data@."edited_at" ||: Str (dateISO env)) ]
         else m) prev.

(** The updater of the "delete" case, line 344. *)
Definition applyDelete (data : obj) (prev : list obj) : list obj :=
  List.filter (fun m => negb (m@."message_id" === data@."message_id")) prev.

(** The updater of the "user_status" case, line 349. *)
Definition applyStatus (data : obj) (prev : list obj) : list obj :=
  map (fun u =>
         if u@."id" === data@."user_id" then
           spread u [ ("is_online", data@."is_online") ]
         else u) prev.

(** ** Inbound frames (lines 249-377) *)

(** The [catch] of [onmessage], line 373. *)
Definition onmessageCatch (st : State) : State :=
  setError (Str "Error receiving message. Please check your connection.")
    (consoleError "Error parsing WebSocket message:" st).

(** The check of line 271: the frame belongs to the open conversation. *)
Definition matchesChat (st : State) (data : obj) : bool :=
  ((data@."sender_id" === (currentUser st)?."id")
   && (data@."receiver_id" === (selectedUser st)?."id"))
  || ((data@."receiver_id" === (currentUser st)?."id")
      && (data@."sender_id" === (selectedUser st)?."id")).

(** The check of line 264. *)
Definition invalidParticipants (data : obj) : bool :=
  Js.not data@."sender_id" || Js.not data@."receiver_id"
  || negb (isValidUUID data@."sender_id") || negb (isValidUUID data@."receiver_id").

(** [case "message"], line 261. *)
Definition onMessageFrame (data : obj) (st : State) : State :=
  let st := consoleLog "Processing message:" st in
  if invalidParticipants data then
    setError (Str "Received invalid message data.")
      (consoleError "Invalid message data:" st)
  else if matchesChat st data then
    setMessages (mergeMessage (currentUser st) (selectedUser st) data)
      (consoleLog "Message matches current chat, updating UI..." st)
  else
    consoleLog "Message ignored, does not match current chat:" st.

(** [case "error"], line 360: [data.error.includes] throws on a value
    that is not a string, which the handler's [catch] takes. *)
Definition onErrorFrame (data : obj) (st : State) : State :=
  let st := consoleError "WebSocket error message:" st in
  let st := setError data@."error" st in
  match data@."error" with
  | Str s =>
      if Text.includes "Invalid token" s || Text.includes "User not found" s then
        navigate "/" (removeToken st)
      else st
  | _ => onmessageCatch st
  end.

(** [ws.current.onmessage], line 249.  [raw] is the object
    [JSON.parse(event.data)] returns, [None] when the parse throws. *)
Definition onmessage (env : Env) (raw : option obj) (st : State) : State :=
  match raw with
  | None => onmessageCatch st
  | Some data =>
      let st := consoleLog "Received WebSocket message:" st in
      let type := data@."type" in
      if Js.not type then
        setError (Str "Invalid message received from server.")
          (consoleWarn "WebSocket message missing type:" st)
      else if type === Str "message" then onMessageFrame data st
      else if type === Str "edit" then
        setMessages (fun prev => Some (applyEdit env data prev))
          (consoleLog "Processing edit:" st)
      else if type === Str "delete" then
        setMessages (fun prev => Some (applyDelete data prev))
          (consoleLog "Processing delete:" st)
      else if type === Str "user_status" then
        setUsers (applyStatus data) (consoleLog "Updating user status:" st)
      else if type === Str "connection" then
        consoleLog "Connection status:" st
      else if type === Str "error" then onErrorFrame data st
      else consoleWarn "Unhandled WebSocket message type:" st
  end.

(** The [.then] of [fetchMessages], line 172: the list is replaced by the
    server's snapshot. *)
Definition fetchMessagesDone (data : list obj) (st : State) : State :=
  set_messages
    (map (fun msg => spread msg [ ("key", generateMessageKey msg) ]) data)
    (emit SetMessages (consoleLog "Messages fetched:" st)).

(** ** REST fallbacks (lines 427-467) *)

(** [editMessageViaAPI], line 427; the boolean is [false] when it throws.
    [fetchMessages] is debounced: the call only requests a fetch. *)
Definition editMessageViaAPI (api : Rest) (messageId : value) (text : string)
    (st : State) : State * bool :=
  let st := emit (HttpPut messageId (Text.trim text)) st in
  match api with
  | RestOk _ =>
      (emit FetchMessages (consoleLog "Message edited via API:" st), true)
  | RestFail detail =>
      (setError (detail ||: Str "Failed to edit message. Please try again.")
         (consoleError "Error editing message via API:" st), false)
  end.

(** [deleteMessageViaAPI], line 449. *)
Definition deleteMessageViaAPI (api : Rest) (messageId : value)
    (st : State) : State * bool :=
  let st := emit (HttpDelete messageId) st in
  match api with
  | RestOk _ =>
      (emit FetchMessages (consoleLog "Message deleted via API:" st), true)
  | RestFail detail =>
      (setError (detail ||: Str "Failed to delete message. Please try again.")
         (consoleError "Error deleting message via API:" st), false)
  end.

(** ** Local intents (lines 470-680) *)

(** The frame built at lines 491 and 558. *)
Definition messageFrame (su : obj) (text media_url media_type file_name : value)
    (tempId : string) : obj :=
  literal [ ("type", Str "message");
            ("receiver_id", su@."id");
            ("text", text);
            ("media_url", media_url);
            ("media_type", media_type);
            ("file_name", file_name);
            ("temp_id", Str tempId) ].

(** The entry appended by the optimistic updaters, lines 502 and 569. *)
Definition pendingEntry (env : Env) (cu msgObj : obj) : obj :=
  let tempId := Str (dateNow env) in
  spread msgObj
    [ ("sender_id", cu@."id");
      ("sender_name", cu@."username");
      ("created_at", Str (dateISO env));
      ("message_id", tempId);
      ("edited", Bool false);
      ("key", generateMessageKey (spread msgObj [ ("message_id", tempId) ])) ].

(** The updater of lines 502 and 569; it reads [currentUser.id], which
    throws when there is no current user. *)
Definition appendPending (env : Env) (cu : option obj) (msgObj : obj)
    (prev : list obj) : option (list obj) :=
  match cu with
  | Some c => Some (prev ++ [pendingEntry env c msgObj])%list
  | None => None
  end.

(** [handleFileUpload], line 470; [upload] is the outcome of the POST. *)
Definition handleFileUpload (env : Env) (upload : Rest) (file : option string)
    (st : State) : State :=
  match file, selectedUser st with
  | Some f, Some su =>
      let st := set_uploadingFile true st in
      let st := emit (HttpUpload f) st in
      let st :=
        match upload with
        | RestOk resp =>
            let msgObj :=
              messageFrame su (Str (message st) ||: Str "")
                resp@."url" resp@."media_type" resp@."filename" (dateNow env) in
            let st := setMessages (appendPending env (currentUser st) msgObj) st in
            let st :=
              if wsOpen st then
                wsSend msgObj (consoleLog "Sending file message via WebSocket:" st)
              else
                connectWebSocket env
                  (setError (Str "Connection lost. Trying to reconnect...")
                     (consoleError "WebSocket not connected for file message" st)) in
            set_files [] (set_message "" st)
        | RestFail detail =>
            setError (detail ||: Str "Failed to upload file. Please try again.")
              (consoleError "Error uploading file:" st)
        end in
      set_uploadingFile false st
  | _, _ =>
      setError (Str "Please select a file and a user to send to.")
        (consoleError "No file or selected user for upload" st)
  end.

(** [handleSendMessage], line 535. *)
Definition handleSendMessage (env : Env) (upload : Rest) (st : State) : State :=
  match currentUser st, selectedUser st with
  | Some cu, Some su =>
      if Js.not (Str (Text.trim (message st))) && (length (files st) =? 0)%nat then
        consoleWarn "No message or file to send" st
      else if negb (wsOpen st) then
        connectWebSocket env
          (setError (Str "Connection lost. Trying to reconnect...")
             (consoleError "WebSocket not connected" st))
      else
        match files st with
        | f :: _ => handleFileUpload env upload (Some f) st
        | [] =>
            let msgObj :=
              messageFrame su (Str (Text.trim (message st))) Null Null Null
                (dateNow env) in
            let st := setMessages (appendPending env (currentUser st) msgObj) st in
            let st := consoleLog "Sending message via WebSocket:" st in
            let st := wsSend msgObj st in
            set_message "" st
        end
  | _, _ =>
      setError (Str "Please select a user and ensure you are logged in.")
        (consoleError "Cannot send message: missing user data" st)
  end.

(** The optimistic updater of [handleEditMessage], line 602. *)
Definition optimisticEdit (env : Env) (messageId : value) (text : string)
    (prev : list obj) : list obj :=
  map (fun m =>
         if m@."message_id" === messageId then
           spread m [ ("text", Str (Text.trim text));
                      ("edited", Bool true);
                      ("edited_at", Str (dateISO env)) ]
         else m) prev.

(** The updater under the comment "Revert optimistic update on failure",
    line 620. *)
Definition revertEdit (messageId : value) (prev : list obj) : list obj :=
  map (fun m =>
         if m@."message_id" === messageId then
           spread m [ ("text", m@."text");
                      ("edited", m@."edited" ||: Bool false);
                      ("edited_at", m@."edited_at" ||: Null) ]
         else m) prev.

(** [handleEditMessage], line 588; [api] is the outcome of the PUT that
    is awaited when the socket is not open. *)
Definition handleEditMessage (env : Env) (api : Rest) (messageId : value)
    (st : State) : State :=
  if Js.not (Str (Text.trim (editText st))) then
    setError (Str "Cannot edit message. Text cannot be empty.")
      (consoleWarn "Cannot edit message: empty text" st)
  else
    let editObj :=
      literal [ ("type", Str "edit");
                ("message_id", messageId);
                ("text", Str (Text.trim (editText st))) ] in
    let st :=
      setMessages (fun prev => Some (optimisticEdit env messageId (editText st) prev)) st in
    if wsOpen st then
      let st := wsSend editObj (consoleLog "Sending edit message via WebSocket:" st) in
      set_editText "" (set_editingMessageId Null st)
    else
      let st :=
        setError (Str "Connection lost. Saving edit via API...")
          (consoleWarn "WebSocket not connected, using API fallback for edit" st) in
      let '(st, ok) := editMessageViaAPI api messageId (editText st) st in
      if ok then
        set_editText "" (set_editingMessageId Null st)
      else
        connectWebSocket env
          (setMessages (fun prev => Some (revertEdit messageId prev)) st).

(** [handleDeleteMessage], line 637; [confirmed] is the answer of
    [window.confirm]. *)
Definition handleDeleteMessage (env : Env) (confirmed : bool) (api : Rest)
    (messageId : value) (st : State) : State :=
  if confirmed then
    let deleteObj :=
      literal [ ("type", Str "delete"); ("message_id", messageId) ] in
    let st :=
      setMessages
        (fun prev =>
           Some (List.filter (fun m => negb (m@."message_id" === messageId)) prev)) st in
    if wsOpen st then
      wsSend deleteObj (consoleLog "Sending delete message via WebSocket:" st)
    else
      let st :=
        setError (Str "Connection lost. Deleting via API...")
          (consoleWarn "WebSocket not connected, using API fallback for delete" st) in
      let '(st, ok) := deleteMessageViaAPI api messageId st in
      if ok then st
      else connectWebSocket env (emit FetchMessages st)
  else st.

(** ** Loading the session and the roster (lines 67-214, 682-693, 752-761) *)

Definition set_currentUser (x : option obj) (st : State) : State :=
  mkState x (selectedUser st) (users st) (message st) (messages st)
    (editingMessageId st) (editText st) (uploadingFile st) (connectionStatus st)
    (error st) (token st) (ws st) (reconnectAttempts st) (files st) (trace st).

Definition set_selectedUser (x : option obj) (st : State) : State :=
  mkState (currentUser st) x (users st) (message st) (messages st)
    (editingMessageId st) (editText st) (uploadingFile st) (connectionStatus st)
    (error st) (token st) (ws st) (reconnectAttempts st) (files st) (trace st).

(** The outcome of a GET: the body [res.data], or a failure with
    [err.response?.status] and [err.response?.data?.detail]. *)
Inductive Reply (A : Type) :=
| Replied (data : A)
| Failed (status : option Z) (detail : value).

Arguments Replied {A} data.
Arguments Failed {A} status detail.

(** A response body that should be an object: an object, or another
    value. *)
Inductive Body :=
| BodyObject (o : obj)
| BodyValue (v : value).

(** [!token] is false: the stored token is a non-empty text. *)
Definition hasToken (st : State) : bool :=
  match token st with
  | Some t => negb (String.eqb t "")
  | None => false
  end.

(** The effect of line 68 up to its request; the boolean tells whether
    GET /users/me is issued. *)
Definition loadCurrentUser (st : State) : State * bool :=
  if hasToken st then
    (consoleLog "Fetching current user with token:" st, true)
  else
    (navigate "/"
       (setError (Str "No authentication token found. Please log in.")
          (consoleError "No token found in localStorage" st)), false).

(** The rejection branch of line 85. *)
Definition invalidUserData (st : State) : State :=
  navigate "/"
    (removeToken
       (setError (Str "Invalid user data received. Please log in again.")
          (consoleError "Invalid user response or ID:" st))).

(** The [.then] and [.catch] of lines 82-101. *)
Definition currentUserLoaded (r : Reply Body) (st : State) : State :=
  match r with
  | Replied body =>
      let st := consoleLog "Current user response:" st in
      match body with
      | BodyObject user =>
          if isValidUUID user@."id" then
            consoleLog "Set currentUser:"
              (set_currentUser (Some user) (consoleLog "Valid user ID:" st))
          else invalidUserData st
      | BodyValue _ => invalidUserData st
      end
  | Failed _ detail =>
      navigate "/"
        (removeToken
           (setError (detail ||: Str "Failed to load user data. Please log in again.")
              (consoleError "Error fetching current user:" st)))
  end.

(** [fetchUsers], line 108, up to its request; the boolean tells whether
    GET /users is issued. *)
Definition fetchUsers (st : State) : State * bool :=
  if hasToken st then (st, true)
  else
    (navigate "/"
       (setError (Str "Session expired. Please log in again.")
          (consoleError "Token missing during users fetch" st)), false).

(** The [.catch] of line 125. *)
Definition usersFailed (status : option Z) (st : State) : State :=
  let st := consoleError "Error fetching users:" st in
  if bool_decide (status = Some 401%Z) then
    navigate "/" (removeToken (setError (Str "Session expired. Please log in again.") st))
  else
    setError (Str "Failed to load users. Please try again.") st.

(** The [.then] and [.catch] of lines 120-134.  The body is [None] when
    it is not an array: [res.data.filter] throws into the [.catch]. *)
Definition usersFetched (r : Reply (option (list obj))) (st : State) : State :=
  match r with
  | Replied (Some data) =>
      setUsers (fun _ => List.filter (fun user => isValidUUID user@."id") data)
        (consoleLog "Users fetched:" st)
  | Replied None => usersFailed None st
  | Failed status _ => usersFailed status st
  end.

(** [fetchMessages], line 143, up to its request: the two identifiers of
    GET /messages/{id}/{id} when it is issued. *)
Definition fetchMessages (st : State) : State * option (value * value) :=
  match selectedUser st, currentUser st with
  | Some su, Some cu =>
      if negb (isValidUUID cu@."id") || negb (isValidUUID su@."id") then
        (setError (Str "Invalid user IDs. Please log out and log in again.")
           (consoleError "Invalid UUIDs detected:" st), None)
      else
        (consoleLog "Fetching messages for:" st, Some (cu@."id", su@."id"))
  | _, _ =>
      (consoleLog "Skipping fetchMessages: missing selectedUser or currentUser" st, None)
  end.

(** The [catch] of line 177. *)
Definition messagesFailed (status : option Z) (st : State) : State :=
  let st := consoleError "Error fetching messages:" st in
  if bool_decide (status = Some 401%Z) then
    navigate "/" (removeToken (setError (Str "Session expired. Please log in again.") st))
  else if bool_decide (status = Some 403%Z) then
    navigate "/"
      (removeToken
         (setError (Str "Access denied. Please log out and log in again.")
            (consoleError "403 Access denied for IDs:" st)))
  else if bool_decide (status = Some 404%Z) then
    setError (Str "One or both users not found. Please select a valid user.") st
  else
    setError (Str "Failed to load messages. Please try again.") st.

(** The rest of [fetchMessages], lines 164-196, with the [retryCount]
    state it writes.  The body is [None] when it is not an array:
    [res.data.map] throws into the [catch]. *)
Definition messagesFetched (r : Reply (option (list obj))) (st : State)
    (retryCount : Z) : State * Z :=
  match r with
  | Replied (Some data) => (fetchMessagesDone data st, 0%Z)
  | Replied None =>
      (messagesFailed None (consoleLog "Messages fetched:" st), retryCount)
  | Failed status _ => (messagesFailed status st, retryCount)
  end.

(** The interval callback of line 206; the interval exists while a
    conversation is open. *)
Definition pollTick (st : State) : State :=
  if isNull (selectedUser st) || isNull (currentUser st) then st
  else if wsOpen st then st
  else emit FetchMessages (consoleLog "WebSocket disconnected, polling messages..." st).

(** The [onClick] of a roster entry, line 752. *)
Definition selectUser (user : obj) (st : State) : State :=
  if negb (isValidUUID user@."id") then
    setError (Str "Invalid user ID. Please select a valid user.")
      (consoleError "Invalid user ID selected:" st)
  else
    setError (Str "") (set_selectedUser (Some user) (consoleLog "Selecting user:" st)).

(** [handleLogout], line 686. *)
Definition handleLogout (st : State) : State :=
  let st := removeToken (consoleLog "Logging out, clearing token and closing WebSocket" st) in
  navigate "/" (match ws st with
                | Some _ => wsClose st
                | None => st
                end).

(** [cancelEditing], line 677. *)
Definition cancelEditing (st : State) : State :=
  set_editText "" (set_editingMessageId Null st).

(** [s.toLowerCase()] on code units below 256: the letters A-Z and the
    Latin-1 capitals (U+00C0 to U+00DE, U+00D7 apart). *)
Definition lowerUnit (c : ascii) : ascii :=
  let n := Text.code c in
  if ((65 <=? n) && (n <=? 90) || (192 <=? n) && (n <=? 222) && negb (n =? 215))%N
  then ascii_of_N (n + 32) else c.

Fixpoint toLowerCase (s : string) : string :=
  match s with
  | EmptyString => EmptyString
  | String c r => String (lowerUnit c) (toLowerCase r)
  end.

(** [u.username || u.email || ""], line 683. *)
Definition displayName (u : obj) : value :=
  u@."username" ||: u@."email" ||: Str "".

(** The test of [users.filter] at line 682; [None] is the TypeError of
    calling [toLowerCase] on a value that has none. *)
Definition userMatches (searchQuery : string) (u : obj) : option bool :=
  match displayName u with
  | Str name => Some (Text.includes (toLowerCase searchQuery) (toLowerCase name))
  | _ => None
  end.

(** [filteredUsers], line 682. *)
Fixpoint filteredUsers (searchQuery : string) (us : list obj) : option (list obj) :=
  match us with
  | [] => Some []
  | u :: rest =>
      keep ← userMatches searchQuery u;
      rest' ← filteredUsers searchQuery rest;
      Some (if keep : bool then u :: rest' else rest')
  end.

(** ** Reading a trace *)

(** The delays handed to [setTimeout]. *)
Definition scheduled (tr : list Effect) : list Z :=
  omap (fun e => match e with SetTimeout ms => Some ms | _ => None end) tr.

(** The frames handed to [ws.send]. *)
Definition sent (tr : list Effect) : list obj :=
  omap (fun e => match e with WsSend f => Some f | _ => None end) tr.

(** One transport failure: the browser closes the socket and calls
    [onclose]; when that call armed a timer, the timer later runs its
    callback. *)
Definition transportFailure (env : Env) (st : State) : State :=
  let st' := onclose (set_ws (Some CLOSED) st) in
  match last (trace st') with
  | Some (SetTimeout _) => reconnectTimer env st'
  | _ => st'
  end.

(** A successful connect: the socket becomes [OPEN] and [onopen] runs. *)
Definition transportOpen (st : State) : State :=
  onopen (set_ws (Some OPEN) st).

(** ** The component as a transition system *)

(** What can happen to a mounted [ChatPage]: the replies to its requests,
    the user's actions, the socket's callbacks and the timers. *)
Inductive Event :=
| UserLoaded (r : Reply Body)                      (* GET /users/me settles *)
| UsersFetched (r : Reply (option (list obj)))     (* GET /users settles *)
| MessagesFetched (r : Reply (option (list obj)))  (* GET /messages/.. settles *)
| UserClicked (user : obj)                         (* line 752 *)
| Typed (text : string)                            (* line 954: setMessage *)
| EditTyped (text : string)                        (* line 875: setEditText *)
| FilePicked (f : string) (upload : Rest)          (* line 939 *)
| SendPressed (upload : Rest)                      (* lines 960, 967 *)
| EditConfirmed (api : Rest) (messageId : value)   (* lines 878, 884 *)
| EditCancelled                                    (* lines 879, 890 *)
| DeletePressed (confirmed : bool) (api : Rest) (messageId : value)  (* line 913 *)
| ErrorDismissed                                   (* line 809: setError("") *)
| LogoutPressed                                    (* line 709 *)
| Connect                                          (* the effect of line 409 *)
| SocketOpened
| SocketErrored
| SocketClosed
| FrameReceived (raw : option obj)
| ReconnectTimerFired
| PollTimerFired.

Definition step (env : Env) (e : Event) (st : State) : State :=
  match e with
  | UserLoaded r => currentUserLoaded r st
  | UsersFetched r => usersFetched r st
  | MessagesFetched r => fst (messagesFetched r st 0)
  | UserClicked user => selectUser user st
  | Typed text => set_message text st
  | EditTyped text => set_editText text st
  | FilePicked f upload => handleFileUpload env upload (Some f) (set_files [f] st)
  | SendPressed upload => handleSendMessage env upload st
  | EditConfirmed api messageId => handleEditMessage env api messageId st
  | EditCancelled => cancelEditing st
  | DeletePressed confirmed api messageId =>
      handleDeleteMessage env confirmed api messageId st
  | ErrorDismissed => setError (Str "") st
  | LogoutPressed => handleLogout st
  | Connect => if isNull (currentUser st) then st else connectWebSocket env st
  | SocketOpened => transportOpen st
  | SocketErrored => onerror st
  | SocketClosed => onclose (set_ws (Some CLOSED) st)
  | FrameReceived raw => onmessage env raw st
  | ReconnectTimerFired => reconnectTimer env st
  | PollTimerFired => pollTick st
  end.

(** A run: events in the order they happen, each with its clock
    readings. *)
Definition run (events : list (Env * Event)) (st : State) : State :=
  foldl (fun s ee => step ee.1 ee.2 s) st events.

(** The state of a freshly mounted component with [tok] in
    [localStorage]. *)
Definition mounted (tok : option string) : State :=
  mkState None None [] "" [] Null "" false "disconnected" (Str "") tok None 0 [] [].

(** Every user the component holds has a well-formed identifier. *)
Definition validUsers (st : State) : Prop :=
  (forall c, currentUser st = Some c -> isValidUUID c@."id" = true)
  /\ (forall s, selectedUser st = Some s -> isValidUUID s@."id" = true)
  /\ Forall (fun u : obj => isValidUUID u@."id" = true) (users st).

(** The part of the state that says who is logged in and how the
    connection is doing. *)
Definition session (st : State)
  : option obj * option obj * list obj * option string * Z :=
  (currentUser st, selectedUser st, users st, token st, reconnectAttempts st).

(** What one step may do to the session: the token is kept or removed;
    the current user is kept or replaced by a loaded user with a
    well-formed identifier; the selected user is kept or replaced by a
    clicked user with a well-formed identifier; the roster is kept,
    replaced by the well-formed users of a reply, or updated by a presence
    frame; the attempt counter is kept, reset, or incremented below 5. *)
Definition sessionStep (st st' : State) : Prop :=
  (token st' = token st \/ token st' = None)
  /\ (currentUser st' = currentUser st
      \/ exists u : obj, isValidUUID u@."id" = true /\ currentUser st' = Some u)
  /\ (selectedUser st' = selectedUser st
      \/ exists u : obj, isValidUUID u@."id" = true /\ selectedUser st' = Some u)
  /\ (users st' = users st
      \/ (exists data, users st' = List.filter (fun u : obj => isValidUUID u@."id") data)
      \/ (exists data, users st' = applyStatus data (users st)))
  /\ (reconnectAttempts st' = reconnectAttempts st
      \/ reconnectAttempts st' = 0%Z
      \/ ((reconnectAttempts st < 5)%Z
          /\ reconnectAttempts st' = (reconnectAttempts st + 1)%Z)).

(** What an inbound frame has no business with: the user's input, the
    socket, the reconnection, who is logged in and what was sent or
    scheduled. *)
Definition bystanders (st : State) :=
  (message st, editText st, editingMessageId st, files st, uploadingFile st,
   ws st, reconnectAttempts st, connectionStatus st, currentUser st,
   selectedUser st, sent (trace st), scheduled (trace st)).

(** The frame of line 639. *)
Definition deleteFrame (messageId : value) : obj :=
  literal [ ("type", Str "delete"); ("message_id", messageId) ].

(** The frame of line 595. *)
Definition editFrame (messageId : value) (text : string) : obj :=
  literal [ ("type", Str "edit");
            ("message_id", messageId);
            ("text", Str (Text.trim text)) ].

(** The number of sockets constructed. *)
Definition socketsMade (tr : list Effect) : nat :=
  length (List.filter (fun e => bool_decide (e = WsNew)) tr).

(** ** Notions the properties are stated with *)

(** The value the properties [props] give to [k], if any: the last one
    written wins. *)
Fixpoint lastProp (k : string) (props : list (string * value)) : option value :=
  match props with
  | [] => None
  | (k', v) :: rest =>
      match lastProp k rest with
      | Some x => Some x
      | None => if String.eqb k' k then Some v else None
      end
  end.

(** The two phrases of line 363. *)
Definition authPhrase (s : string) : Prop :=
  (exists a b, s = a ++ "Invalid token" ++ b)
  \/ (exists a b, s = a ++ "User not found" ++ b).

(** The effects a step appended to the trace. *)
Definition newEffects (st st' : State) : list Effect :=
  drop (length (trace st)) (trace st').

(** A step surfaced something: it called [setError], [console.warn] or
    [console.error]. *)
Definition surfaced (st st' : State) : bool :=
  negb (forallb (fun e => match e with
                          | SetError _ | ConsoleWarn _ | ConsoleError _ => false
                          | _ => true
                          end) (newEffects st st')).

(** The frame is for the open conversation, in either direction. *)
Definition activePair (st : State) (data : obj) : Prop :=
  (data@."sender_id" = (currentUser st)?."id"
   /\ data@."receiver_id" = (selectedUser st)?."id")
  \/ (data@."receiver_id" = (currentUser st)?."id"
      /\ data@."sender_id" = (selectedUser st)?."id").

(** The media kind [updateEntry] and [newEntry] settle on. *)
Definition mediaTypeFor (known url : value) : option value :=
  if truthy known then Some known else mediaTypeOf url.

(** The properties [updateEntry] writes, given the media kind. *)
Definition updateProps (cu : option obj) (data m : obj) (media_type : value)
  : list (string * value) :=
  [ ("message_id", data@."message_id" ||: m@."message_id");
    ("temp_id", if truthy data@."temp_id" then Undefined else m@."temp_id");
    ("text", data@."text" ||: m@."text");
    ("media_url", data@."media_url" ||: m@."media_url");
    ("media_type", media_type);
    ("file_name", data@."file_name" ||: m@."file_name");
    ("created_at", data@."created_at" ||: m@."created_at");
    ("sender_id", data@."sender_id");
    ("receiver_id", data@."receiver_id");
    ("sender_name", data@."sender_name" ||: m@."sender_name" ||: cu?."username");
    ("edited", data@."edited" ||: m@."edited" ||: Bool false);
    ("key", generateMessageKey data) ].

(** The function [prev.map] applies at line 283. *)
Definition mergeStep (cu : option obj) (data m : obj) : option obj :=
  if sameMessage data m then updateEntry cu data m else Some m.

(** The entries of [l] whose [message_id] is the frame's. *)
Definition withId (data : obj) (l : list obj) : list obj :=
  List.filter (fun m => m@."message_id" === data@."message_id") l.

(** The entries of [l] the frame matches. *)
Definition matched (data : obj) (l : list obj) : list obj :=
  List.filter (sameMessage data) l.

(** The sender name [newEntry] settles on. *)
Definition senderNameFor (cu su : option obj) (data : obj) : option value :=
  if truthy data@."sender_name" then Some data@."sender_name"
  else if data@."sender_id" === cu?."id" then
    match cu with
    | Some c => Some c@."username"
    | None => None
    end
  else Some su?."username".

Definition newProps (data : obj) (sender_name media_type : value)
  : list (string * value) :=
  [ ("message_id", data@."message_id" ||: data@."temp_id");
    ("temp_id", if truthy data@."temp_id" then Undefined else data@."temp_id");
    ("sender_name", sender_name);
    ("media_type", media_type);
    ("edited", data@."edited" ||: Bool false);
    ("key", generateMessageKey data) ].

(** Reading every property gives the same value: an absent property and
    a property holding [undefined] read alike. *)
Definition sameReads (a b : obj) : Prop := forall k, a@.k = b@.k.






(** ** Concrete users, frames and states *)


(** Two users and a conversation between them. *)
Definition alice : obj :=
  literal [ ("id", Str "11111111-1111-4111-8111-111111111111");
            ("username", Str "alice") ].

Definition bob : obj :=
  literal [ ("id", Str "22222222-2222-4222-8222-222222222222");
            ("username", Str "bob") ].

Definition clock : Env := mkEnv "1700000000000" "2024-05-01T10:00:00.000Z" true.

(** Alice has Bob's conversation open, the socket is open, and [draft] is
    typed in the input. *)
Definition chatting (draft : string) (msgs : list obj) : State :=
  mkState (Some alice) (Some bob) [bob] draft msgs Null "" false "connected"
    (Str "") (Some "token") (Some OPEN) 0 [] [].

(** Two sends within the same millisecond. *)
Definition twoPending : list obj :=
  messages
    (handleSendMessage clock (RestFail Undefined)
       (set_message "second"
          (handleSendMessage clock (RestFail Undefined) (chatting "first" [])))).

(** The server's echo of the first of them. *)
Definition echoFirst : obj :=
  literal [ ("type", Str "message");
            ("message_id", Str "m1");
            ("temp_id", Str "1700000000000");
            ("sender_id", alice@."id");
            ("receiver_id", bob@."id");
            ("text", Str "first");
            ("created_at", Str "2024-05-01T10:00:00.100Z") ].

(** A user the roster lists without a [username]. *)
Definition carol : obj :=
  literal [ ("id", Str "33333333-3333-4333-8333-333333333333");
            ("email", Str "carol@example.org") ].

(** Alice has Carol's conversation open. *)
Definition withCarol (msgs : list obj) : State :=
  mkState (Some alice) (Some carol) [carol] "" msgs Null "" false "connected"
    (Str "") (Some "token") (Some OPEN) 0 [] [].

(** A message from Carol to Alice. *)
Definition fromCarol : obj :=
  literal [ ("type", Str "message");
            ("message_id", Str "m7");
            ("sender_id", carol@."id");
            ("receiver_id", alice@."id");
            ("text", Str "hello");
            ("created_at", Str "2024-05-01T10:00:01.000Z") ].

(** The same message again, with an empty text and [edited: false]. *)
Definition fromCarolBlank : obj :=
  spread fromCarol [ ("text", Str ""); ("edited", Bool false) ].

(** The stored copy of Carol's message, edited since. *)
Definition carolEdited : obj :=
  spread fromCarol [ ("text", Str "hello!"); ("edited", Bool true) ].

(** Carol's message delivered once, and twice. *)
Definition carolOnce : State := onmessage clock (Some fromCarol) (withCarol []).

Definition carolTwice : State := onmessage clock (Some fromCarol) carolOnce.



(** Alice's first message, confirmed by the server. *)
Definition sentFirst : obj :=
  literal [ ("message_id", Str "m1");
            ("sender_id", alice@."id");
            ("receiver_id", bob@."id");
            ("text", Str "first");
            ("created_at", Str "2024-05-01T10:00:00.100Z");
            ("edited", Bool false) ].

(** Alice edits it to "changed" while the socket is closed. *)
Definition offlineEditing : State :=
  mkState (Some alice) (Some bob) [bob] "" [sentFirst] (Str "m1") "changed" false
    "disconnected" (Str "") (Some "token") (Some CLOSED) 5 [] [].

(** Alice types "hello" to Bob while the socket is closed. *)
Definition offlineDraft : State :=
  mkState (Some alice) (Some bob) [bob] "hello" [sentFirst] Null "" false
    "disconnected" (Str "") (Some "token") (Some CLOSED) 0 [] [].

(** An edit frame for a message that is not in the list. *)
Definition editUnknown : obj :=
  literal [ ("type", Str "edit"); ("message_id", Str "m404"); ("text", Str "late") ].

(** An error frame of the authentication class. *)
Definition tokenExpired : obj :=
  literal [ ("type", Str "error"); ("error", Str "Invalid token: expired") ].

(** Presence frames: Bob comes online; so does Carol, whom the roster of
    [chatting] does not list. *)
Definition bobOnline : obj :=
  literal [ ("type", Str "user_status"); ("user_id", bob@."id"); ("is_online", Bool true) ].

Definition carolOnline : obj :=
  literal [ ("type", Str "user_status"); ("user_id", carol@."id"); ("is_online", Bool true) ].

(** * Properties *)

(** ** Reconnection backoff *)

Section Backoff.

Variable env : Env.

Lemma connectWebSocket_attempts st :
  reconnectAttempts (connectWebSocket env st) = reconnectAttempts st.
Proof.
  unfold connectWebSocket.
  destruct (isNull (currentUser st) || wsOpen st); [reflexivity|].
  destruct (wsCtorOk env); reflexivity.
Qed.

Lemma connectWebSocket_scheduled st :
  scheduled (trace (connectWebSocket env st)) = scheduled (trace st).
Proof.
  unfold connectWebSocket, scheduled.
  destruct (isNull (currentUser st) || wsOpen st); cbn.
  - rewrite omap_app; cbn. apply app_nil_r.
  - destruct (wsCtorOk env); cbn; rewrite !omap_app; cbn; rewrite !app_nil_r; reflexivity.
Qed.

Lemma onclose_retry st :
  (reconnectAttempts st < 5)%Z ->
  onclose st =
    emit (SetTimeout (reconnectDelay (reconnectAttempts st + 1)))
      (consoleLog "Scheduling reconnect"
         (set_reconnectAttempts (reconnectAttempts st + 1)
            (set_connectionStatus "disconnected"
               (consoleLog "WebSocket disconnected:" st)))).
Proof.
  intros Hlt. unfold onclose. cbn.
  destruct (Z.ltb_spec (reconnectAttempts st) 5); [reflexivity | lia].
Qed.


Lemma transportFailure_retry st :
  (reconnectAttempts st < 5)%Z ->
  reconnectAttempts (transportFailure env st) = (reconnectAttempts st + 1)%Z
  /\ scheduled (trace (transportFailure env st)) =
       (scheduled (trace st) ++ [reconnectDelay (reconnectAttempts st + 1)])%list.
Proof.
  intros Hlt. unfold transportFailure.
  rewrite onclose_retry by exact Hlt. cbn.
  rewrite last_snoc. unfold reconnectTimer.
  rewrite connectWebSocket_attempts, connectWebSocket_scheduled. cbn.
  split; [reflexivity|].
  unfold scheduled. rewrite !omap_app. cbn. rewrite !app_nil_r. reflexivity.
Qed.



End Backoff.



(** ** The pattern and the string functions at work *)

Example isValidUUID_lower : isValidUUID (Str "123e4567-e89b-42d3-a456-426614174000") = true.
Proof. reflexivity. Qed.

Example isValidUUID_upper : isValidUUID (Str "123E4567-E89B-12D3-B456-426614174000") = true.
Proof. reflexivity. Qed.

Example isValidUUID_version : isValidUUID (Str "123e4567-e89b-62d3-a456-426614174000") = false.
Proof. reflexivity. Qed.

Example isValidUUID_variant : isValidUUID (Str "123e4567-e89b-42d3-c456-426614174000") = false.
Proof. reflexivity. Qed.

Example isValidUUID_short : isValidUUID (Str "123e4567-e89b-42d3-a456-42661417400") = false.
Proof. reflexivity. Qed.

Example isValidUUID_not_text : isValidUUID Null = false /\ isValidUUID (Bool true) = false.
Proof. split; reflexivity. Qed.

Example trim_both_ends : Text.trim "  two words  " = "two words".
Proof. reflexivity. Qed.

Example mediaTypeOf_kinds :
  mediaTypeOf (Str "/files/cat.PNG") = Some (Str "image")
  /\ mediaTypeOf (Str "/files/clip.webm") = Some (Str "video")
  /\ mediaTypeOf (Str "/files/cat.png.zip") = Some (Str "file")
  /\ mediaTypeOf Null = Some (Str "file")
  /\ mediaTypeOf (Bool true) = None.
Proof. repeat split; reflexivity. Qed.

Example generateMessageKey_pending :
  generateMessageKey (literal [ ("temp_id", Str "17"); ("receiver_id", Str "b") ]) =
    Str "17-undefined-b-undefined".
Proof. reflexivity. Qed.

(** ** Facts about the string functions *)

Lemma seq_refl v : (v === v) = true.
Proof. unfold Js.seq. apply bool_decide_eq_true. reflexivity. Qed.

Lemma seq_true a b : (a === b) = true <-> a = b.
Proof. unfold Js.seq. apply bool_decide_eq_true. Qed.

Lemma seq_false a b : (a === b) = false <-> a <> b.
Proof. unfold Js.seq. apply bool_decide_eq_false. Qed.

Lemma seq_str a b : (Str a === Str b) = String.eqb a b.
Proof.
  destruct (String.eqb_spec a b) as [->|Hne].
  - apply seq_refl.
  - apply seq_false. congruence.
Qed.

Lemma trimStart_allWhite s : Text.allWhite s = true -> Text.trimStart s = "".
Proof.
  induction s as [|c r IH]; cbn; [reflexivity|].
  intros [Hc Hr]%andb_true_iff. rewrite Hc. auto.
Qed.

Lemma trim_allWhite s : Text.allWhite s = true -> Text.trim s = "".
Proof. intros H. unfold Text.trim. rewrite trimStart_allWhite by exact H. reflexivity. Qed.

Lemma trimEnd_empty s : Text.trimEnd s = "" -> Text.allWhite s = true.
Proof.
  induction s as [|c r IH]; cbn; [reflexivity|].
  destruct (Text.trimEnd r); [|discriminate].
  destruct (Text.isWhite c); [|discriminate].
  intros _. auto.
Qed.

Lemma trimStart_white_back s : Text.allWhite (Text.trimStart s) = true -> Text.allWhite s = true.
Proof.
  induction s as [|c r IH]; cbn; [reflexivity|].
  destruct (Text.isWhite c) eqn:Hc; cbn; [exact IH|].
  rewrite Hc. discriminate.
Qed.

(** [s.trim()] is empty exactly when [s] is made of white space only. *)
Lemma trim_empty_iff s : Text.trim s = "" <-> Text.allWhite s = true.
Proof.
  split; [|apply trim_allWhite].
  intros H. apply trimStart_white_back, trimEnd_empty, H.
Qed.

Lemma append_cons c (a b : string) : String c a ++ b = String c (a ++ b).
Proof. reflexivity. Qed.

Lemma prefix_app n h : String.prefix n h = true <-> exists b, h = n ++ b.
Proof.
  revert h. induction n as [|c n IH]; intros h.
  - split; [intros _; exists h; reflexivity | intros _; destruct h; reflexivity].
  - destruct h as [|d h]; simpl.
    + split; [discriminate | intros [b Hb]; discriminate].
    + destruct (Ascii.ascii_dec c d) as [->|Hne].
      * rewrite IH. split; intros [b Hb]; exists b.
        -- rewrite append_cons, Hb. reflexivity.
        -- rewrite append_cons in Hb. congruence.
      * split; [discriminate | intros [b Hb]; rewrite append_cons in Hb; congruence].
Qed.

(** [includes] is the substring test. *)
Lemma includes_substring n h :
  Text.includes n h = true <-> exists a b, h = a ++ n ++ b.
Proof.
  induction h as [|d h IH]; cbn [Text.includes].
  - rewrite orb_false_r, prefix_app. split.
    + intros [b Hb]. exists "", b. exact Hb.
    + intros [a [b Hb]]. destruct a; [eauto | discriminate].
  - rewrite orb_true_iff, prefix_app, IH. split.
    + intros [[b Hb] | [a [b Hb]]].
      * exists "", b. exact Hb.
      * exists (String d a), b. rewrite append_cons, Hb. reflexivity.
    + intros [a [b Hb]]. destruct a as [|e a].
      * left. eauto.
      * right. exists a, b. rewrite append_cons in Hb. congruence.
Qed.

(** ** Facts about object spread *)

Lemma lookup_spread (m : obj) props k :
  spread m props !! k =
    match lastProp k props with
    | Some v => Some v
    | None => m !! k
    end.
Proof.
  unfold spread. revert m. induction props as [|[k' v] rest IH]; intros m; cbn.
  - reflexivity.
  - rewrite IH. destruct (lastProp k rest); [reflexivity|].
    destruct (String.eqb_spec k' k) as [->|Hne].
    + apply lookup_insert_eq.
    + apply lookup_insert_ne. exact Hne.
Qed.

Lemma get_spread (m : obj) props k :
  (spread m props)@.k =
    match lastProp k props with
    | Some v => v
    | None => m@.k
    end.
Proof.
  unfold Js.get. rewrite lookup_spread. destruct (lastProp k props); reflexivity.
Qed.

Lemma lastProp_None_keys k ps qs :
  map fst ps = map fst qs -> lastProp k qs = None -> lastProp k ps = None.
Proof.
  revert qs. induction ps as [|[k1 v1] ps IH]; intros [|[k2 v2] qs] Hk; cbn in *;
    try discriminate; [reflexivity|].
  injection Hk as -> Hk. intros H.
  destruct (lastProp k qs) eqn:Hq; [discriminate|].
  rewrite (IH qs Hk Hq). destruct (String.eqb k2 k); [discriminate | reflexivity].
Qed.

(** Writing the same properties a second time overwrites the first
    writes. *)
Lemma spread_overwrite (m : obj) ps qs :
  map fst ps = map fst qs -> spread (spread m ps) qs = spread m qs.
Proof.
  intros Hk. apply map_eq. intros k. rewrite !lookup_spread.
  destruct (lastProp k qs) eqn:Hq; [reflexivity|].
  rewrite (lastProp_None_keys k ps qs Hk Hq). reflexivity.
Qed.

Lemma sublist_filter_bool {A} (f : A -> bool) (l : list A) :
  sublist (List.filter f l) l.
Proof.
  induction l as [|x l IH]; cbn; [constructor|].
  destruct (f x); [apply sublist_skip | apply sublist_cons]; exact IH.
Qed.

Lemma filter_all_true {A} (f : A -> bool) (l : list A) :
  Forall (fun x => f x = true) l -> List.filter f l = l.
Proof.
  induction 1 as [|x l Hx _ IH]; cbn; [reflexivity|].
  rewrite Hx, IH. reflexivity.
Qed.

Lemma map_id_on {A} (f : A -> A) (l : list A) :
  Forall (fun x => f x = x) l -> map f l = l.
Proof.
  induction 1 as [|x l Hx _ IH]; cbn; [reflexivity|].
  rewrite Hx, IH. reflexivity.
Qed.

(** ** Blank input *)

(** C10.  A send whose text is empty or white space only, with no file
    selected, and an edit whose new text is empty or white space only, stop
    before any mutation: the handler only logs (or sets the error text), the
    message list is the same and nothing is handed to [ws.send]. *)
Theorem blank_intent_rejected (env : Env) (upload api : Rest) (messageId : value)
    (st : State) :
  (Text.allWhite (message st) = true -> files st = [] ->
     let st' := handleSendMessage env upload st in
     (st' = consoleWarn "No message or file to send" st
      \/ st' = setError (Str "Please select a user and ensure you are logged in.")
                 (consoleError "Cannot send message: missing user data" st))
     /\ messages st' = messages st
     /\ sent (trace st') = sent (trace st))
  /\ (Text.allWhite (editText st) = true ->
     let st' := handleEditMessage env api messageId st in
     st' = setError (Str "Cannot edit message. Text cannot be empty.")
             (consoleWarn "Cannot edit message: empty text" st)
     /\ messages st' = messages st
     /\ sent (trace st') = sent (trace st)).
Proof.
  split.
  - intros Hw Hf st'. subst st'. unfold handleSendMessage.
    rewrite trim_allWhite by exact Hw. rewrite Hf. cbn.
    destruct (currentUser st), (selectedUser st); cbn;
      (split; [auto|]); (split; [reflexivity|]);
      unfold sent; rewrite !omap_app; cbn; rewrite ?app_nil_r; reflexivity.
  - intros Hw st'. subst st'. unfold handleEditMessage.
    rewrite trim_allWhite by exact Hw. cbn.
    split; [reflexivity|]. split; [reflexivity|].
    unfold sent; rewrite !omap_app; cbn; rewrite ?app_nil_r; reflexivity.
Qed.

(** ** Error frames *)

Lemma authPhrase_includes s :
  Text.includes "Invalid token" s || Text.includes "User not found" s = true
  <-> authPhrase s.
Proof. unfold authPhrase. rewrite orb_true_iff, !includes_substring. reflexivity. Qed.

(** C9.  An inbound error frame is classified by its [error] field.  When
    the field is a text [s], the error text becomes [s]; if [s] contains
    "Invalid token" or "User not found" the stored token is removed and the
    client navigates to "/"; if it contains neither, nothing but the error
    text changes: the token stays and no navigation happens.  A field that
    is not a text invalidates nothing either.  The message list is never
    touched. *)
Theorem error_frame_classified (env : Env) (data : obj) (st : State) :
  data@."type" = Str "error" ->
  let st' := onmessage env (Some data) st in
  messages st' = messages st
  /\ match data@."error" with
     | Str s =>
         error st' = Str s
         /\ (authPhrase s ->
               token st' = None
               /\ trace st' =
                    (trace st ++ [ ConsoleLog "Received WebSocket message:";
                                   ConsoleError "WebSocket error message:";
                                   SetError (Str s); RemoveToken; Navigate "/" ])%list)
         /\ (~ authPhrase s ->
               st' = setError (Str s)
                       (consoleError "WebSocket error message:"
                          (consoleLog "Received WebSocket message:" st))
               /\ token st' = token st
               /\ trace st' =
                    (trace st ++ [ ConsoleLog "Received WebSocket message:";
                                   ConsoleError "WebSocket error message:";
                                   SetError (Str s) ])%list)
     | v =>
         token st' = token st
         /\ trace st' =
              (trace st ++ [ ConsoleLog "Received WebSocket message:";
                             ConsoleError "WebSocket error message:";
                             SetError v;
                             ConsoleError "Error parsing WebSocket message:";
                             SetError (Str "Error receiving message. Please check your connection.")
                           ])%list
     end.
Proof.
  intros Ht st'. subst st'. unfold onmessage. rewrite Ht.
  rewrite !seq_str. cbn -[Text.includes].
  unfold onErrorFrame.
  destruct (data@."error") as [| |b|s] eqn:He;
    try (cbn; split; [reflexivity|]; split; [reflexivity|];
         rewrite <- !app_assoc; reflexivity).
  destruct (Text.includes "Invalid token" s || Text.includes "User not found" s) eqn:Hi.
  - apply authPhrase_includes in Hi. cbn.
    split; [reflexivity|]. split; [reflexivity|]. split.
    + intros _. split; [reflexivity|]. rewrite <- !app_assoc. reflexivity.
    + intros Hn. contradiction.
  - assert (Hn : ~ authPhrase s).
    { rewrite <- authPhrase_includes, Hi. discriminate. }
    cbn. split; [reflexivity|]. split; [reflexivity|]. split.
    + intros Ha. contradiction.
    + intros _. split; [reflexivity|]. split; [reflexivity|].
      rewrite <- !app_assoc. reflexivity.
Qed.

(** ** Inbound edit and delete frames *)

Lemma applyEdit_unknown env data prev :
  Forall (fun m : obj => m@."message_id" <> data@."message_id") prev ->
  applyEdit env data prev = prev.
Proof.
  intros H. unfold applyEdit. apply map_id_on.
  eapply Forall_impl; [exact H|]. cbn. intros m Hm.
  apply seq_false in Hm. rewrite Hm. reflexivity.
Qed.

Lemma applyDelete_unknown data prev :
  Forall (fun m : obj => m@."message_id" <> data@."message_id") prev ->
  applyDelete data prev = prev.
Proof.
  intros H. unfold applyDelete. apply filter_all_true.
  eapply Forall_impl; [exact H|]. cbn. intros m Hm.
  apply seq_false in Hm. rewrite Hm. reflexivity.
Qed.

Lemma applyEdit_lookup env data prev i (m : obj) :
  prev !! i = Some m ->
  applyEdit env data prev !! i =
    Some (if m@."message_id" === data@."message_id" then
            spread m [ ("text", data@."text");
                       ("edited", Bool true);
                       ("edited_at", data@."edited_at" ||: Str (dateISO env)) ]
          else m).
Proof.
  intros H. unfold applyEdit. rewrite list_lookup_fmap, H. reflexivity.
Qed.

Lemma applyDelete_elem data prev (m : obj) :
  m ∈ applyDelete data prev <-> m ∈ prev /\ m@."message_id" <> data@."message_id".
Proof.
  unfold applyDelete. rewrite !list_elem_of_In, filter_In, negb_true_iff, seq_false.
  reflexivity.
Qed.

(** C8.  An inbound edit or delete frame whose [message_id] is the
    [message_id] of no entry leaves the message list (and the error text) as
    it was.  An edit frame rewrites, in place, every entry with its
    [message_id]: the text becomes the frame's text and [edited] becomes
    [true]; the other properties apart from [edited_at], and the other
    entries, are kept.  A delete frame removes the entries with its
    [message_id] and only those, keeping the order of the rest. *)
Theorem edit_delete_frames (env : Env) (data : obj) (st : State) :
  (data@."type" = Str "edit" ->
     let st' := onmessage env (Some data) st in
     (Forall (fun m : obj => m@."message_id" <> data@."message_id") (messages st) ->
        messages st' = messages st /\ error st' = error st)
     /\ length (messages st') = length (messages st)
     /\ (forall i (m : obj), messages st !! i = Some m ->
           m@."message_id" = data@."message_id" ->
           exists m' : obj,
             messages st' !! i = Some m'
             /\ m'@."text" = data@."text"
             /\ m'@."edited" = Bool true
             /\ (forall k, k <> "text" -> k <> "edited" -> k <> "edited_at" ->
                   m' !! k = m !! k))
     /\ (forall i (m : obj), messages st !! i = Some m ->
           m@."message_id" <> data@."message_id" ->
           messages st' !! i = Some m))
  /\ (data@."type" = Str "delete" ->
     let st' := onmessage env (Some data) st in
     (Forall (fun m : obj => m@."message_id" <> data@."message_id") (messages st) ->
        messages st' = messages st /\ error st' = error st)
     /\ (forall m : obj,
           m ∈ messages st' <->
           m ∈ messages st /\ m@."message_id" <> data@."message_id")
     /\ sublist (messages st') (messages st)).
Proof.
  split; intros Ht st'; subst st'; unfold onmessage; rewrite Ht;
    rewrite !seq_str; cbn -[applyEdit applyDelete].
  - split; [|split; [|split]].
    + intros Hu. rewrite applyEdit_unknown by exact Hu. split; reflexivity.
    + unfold applyEdit. apply length_map.
    + intros i m Hi Hm.
      rewrite (applyEdit_lookup env data _ i m Hi).
      apply seq_true in Hm. rewrite Hm.
      eexists. split; [reflexivity|].
      split; [rewrite get_spread; reflexivity|].
      split; [rewrite get_spread; reflexivity|].
      intros k H1 H2 H3. rewrite lookup_spread. cbn [lastProp].
      apply String.eqb_neq in H1, H2, H3.
      rewrite String.eqb_sym in H1. rewrite String.eqb_sym in H2.
      rewrite String.eqb_sym in H3.
      rewrite H1, H2, H3. reflexivity.
    + intros i m Hi Hm.
      rewrite (applyEdit_lookup env data _ i m Hi).
      apply seq_false in Hm. rewrite Hm. reflexivity.
  - split; [|split].
    + intros Hu. rewrite applyDelete_unknown by exact Hu. split; reflexivity.
    + apply applyDelete_elem.
    + apply sublist_filter_bool.
Qed.

(** ** Inbound message frames: validation *)

Lemma matchesChat_activePair st data :
  matchesChat st data = true <-> activePair st data.
Proof.
  unfold matchesChat, activePair.
  rewrite orb_true_iff, !andb_true_iff, !seq_true. reflexivity.
Qed.

Lemma isValidUUID_truthy v : isValidUUID v = true -> truthy v = true.
Proof.
  destruct v as [| |b|s]; cbn; try discriminate.
  destruct s; [discriminate | reflexivity].
Qed.

Lemma invalidParticipants_false data :
  invalidParticipants data = false <->
  isValidUUID data@."sender_id" = true /\ isValidUUID data@."receiver_id" = true.
Proof.
  unfold invalidParticipants, Js.not. split.
  - intros H. repeat (apply orb_false_iff in H; destruct H as [H ?]).
    split; apply negb_false_iff; assumption.
  - intros [Hs Hr].
    rewrite (isValidUUID_truthy _ Hs), (isValidUUID_truthy _ Hr), Hs, Hr. reflexivity.
Qed.

Lemma newEffects_app st st' l :
  trace st' = (trace st ++ l)%list -> newEffects st st' = l.
Proof. intros H. unfold newEffects. rewrite H. apply drop_app_length. Qed.

(** C7.  An inbound message frame changes the message list only if both
    participant identifiers match the identifier pattern and the pair is
    the open conversation's, in either direction.  A frame with a malformed
    identifier is dropped: the list is unchanged and the error "Received
    invalid message data." is set.  A well-formed frame for another
    conversation is dropped too, but nothing is surfaced for it: the
    handler only writes a [console.log] line, and the error text is
    unchanged. *)
Theorem message_frame_filter (env : Env) (data : obj) (st : State) :
  data@."type" = Str "message" ->
  let st' := onmessage env (Some data) st in
  let wellFormed :=
    isValidUUID data@."sender_id" = true /\ isValidUUID data@."receiver_id" = true in
  (messages st' <> messages st -> wellFormed /\ activePair st data)
  /\ (~ wellFormed ->
        messages st' = messages st
        /\ error st' = Str "Received invalid message data."
        /\ newEffects st st' =
             [ ConsoleLog "Received WebSocket message:";
               ConsoleLog "Processing message:";
               ConsoleError "Invalid message data:";
               SetError (Str "Received invalid message data.") ]
        /\ surfaced st st' = true)
  /\ (wellFormed -> ~ activePair st data ->
        messages st' = messages st
        /\ error st' = error st
        /\ newEffects st st' =
             [ ConsoleLog "Received WebSocket message:";
               ConsoleLog "Processing message:";
               ConsoleLog "Message ignored, does not match current chat:" ]
        /\ surfaced st st' = false)
  /\ (wellFormed -> activePair st data ->
        st' = setMessages (mergeMessage (currentUser st) (selectedUser st) data)
                (consoleLog "Message matches current chat, updating UI..."
                   (consoleLog "Processing message:"
                      (consoleLog "Received WebSocket message:" st)))).
Proof.
  intros Ht st' wellFormed. subst st' wellFormed.
  unfold onmessage. rewrite Ht. rewrite !seq_str.
  cbn -[invalidParticipants matchesChat mergeMessage].
  unfold onMessageFrame.
  destruct (invalidParticipants data) eqn:Hinv.
  - assert (Hnw : ~ (isValidUUID data@."sender_id" = true
                     /\ isValidUUID data@."receiver_id" = true)).
    { intros Hw. apply invalidParticipants_false in Hw. congruence. }
    assert (Hnew : newEffects st
              (setError (Str "Received invalid message data.")
                 (consoleError "Invalid message data:"
                    (consoleLog "Processing message:"
                       (consoleLog "Received WebSocket message:" st)))) =
              [ ConsoleLog "Received WebSocket message:";
                ConsoleLog "Processing message:";
                ConsoleError "Invalid message data:";
                SetError (Str "Received invalid message data.") ]).
    { apply newEffects_app. cbn. rewrite <- !app_assoc. reflexivity. }
    split; [|split; [|split]].
    + intros Hm. exfalso. apply Hm. reflexivity.
    + intros _. split; [reflexivity|]. split; [reflexivity|].
      split; [exact Hnew|]. unfold surfaced. rewrite Hnew. reflexivity.
    + intros Hw. contradiction.
    + intros Hw. contradiction.
  - apply invalidParticipants_false in Hinv.
    change (matchesChat
              (consoleLog "Processing message:"
                 (consoleLog "Received WebSocket message:" st)) data)
      with (matchesChat st data).
    destruct (matchesChat st data) eqn:Hm.
    + apply matchesChat_activePair in Hm.
      split; [|split; [|split]].
      * intros _. split; assumption.
      * intros Hnw. contradiction.
      * intros _ Hna. contradiction.
      * intros _ _. reflexivity.
    + assert (Hna : ~ activePair st data).
      { rewrite <- matchesChat_activePair, Hm. discriminate. }
      assert (Hnew : newEffects st
                (consoleLog "Message ignored, does not match current chat:"
                   (consoleLog "Processing message:"
                      (consoleLog "Received WebSocket message:" st))) =
                [ ConsoleLog "Received WebSocket message:";
                  ConsoleLog "Processing message:";
                  ConsoleLog "Message ignored, does not match current chat:" ]).
      { apply newEffects_app. cbn. rewrite <- !app_assoc. reflexivity. }
      split; [|split; [|split]].
      * intros Hne. exfalso. apply Hne. reflexivity.
      * intros Hnw. contradiction.
      * intros _ _. split; [reflexivity|]. split; [reflexivity|].
        split; [exact Hnew|]. unfold surfaced. rewrite Hnew. reflexivity.
      * intros _ Ha. contradiction.
Qed.

(** ** Local send *)

Lemma connectWebSocket_frame env st :
  messages (connectWebSocket env st) = messages st
  /\ message (connectWebSocket env st) = message st
  /\ sent (trace (connectWebSocket env st)) = sent (trace st).
Proof.
  unfold connectWebSocket, sent.
  destruct (isNull (currentUser st) || wsOpen st); cbn.
  - rewrite omap_app. cbn. rewrite app_nil_r. auto.
  - destruct (wsCtorOk env); cbn; rewrite !omap_app; cbn; rewrite !app_nil_r; auto.
Qed.

Lemma connectWebSocket_trace env st :
  exists l, trace (connectWebSocket env st) = (trace st ++ l)%list.
Proof.
  unfold connectWebSocket.
  destruct (isNull (currentUser st) || wsOpen st); [|destruct (wsCtorOk env)]; cbn;
    rewrite <- ?app_assoc; eexists; reflexivity.
Qed.

Lemma wsOpen_true st : ws st = Some OPEN -> wsOpen st = true.
Proof. intros H. unfold wsOpen. apply bool_decide_eq_true. exact H. Qed.

Lemma wsOpen_false st : ws st <> Some OPEN -> wsOpen st = false.
Proof. intros H. unfold wsOpen. apply bool_decide_eq_false. exact H. Qed.

Lemma not_str_nonempty s : s <> "" -> Js.not (Str s) = false.
Proof.
  intros H. unfold Js.not. cbn. destruct (String.eqb_spec s ""); [contradiction | reflexivity].
Qed.

(** A file picked through the file input while the socket is not open:
    after the upload the pending entry is appended all the same, nothing is
    sent, and [connectWebSocket] is called. *)
Lemma handleFileUpload_offline env resp f st cu su :
  currentUser st = Some cu ->
  selectedUser st = Some su ->
  ws st <> Some OPEN ->
  let frame :=
    messageFrame su (Str (message st) ||: Str "")
      resp@."url" resp@."media_type" resp@."filename" (dateNow env) in
  let st' := handleFileUpload env (RestOk resp) (Some f) st in
  messages st' = (messages st ++ [pendingEntry env cu frame])%list
  /\ sent (trace st') = sent (trace st)
  /\ In (SetError (Str "Connection lost. Trying to reconnect...")) (trace st').
Proof.
  intros Hcu Hsu Hws frame st'. subst frame st'.
  unfold handleFileUpload. rewrite Hsu. cbn -[messageFrame pendingEntry connectWebSocket sent].
  unfold setMessages, appendPending. cbn -[messageFrame pendingEntry connectWebSocket sent].
  rewrite Hcu. cbn -[messageFrame pendingEntry connectWebSocket sent].
  replace (wsOpen _) with false by (symmetry; apply wsOpen_false; exact Hws).
  match goal with
  | |- context [connectWebSocket env ?s] =>
      destruct (connectWebSocket_frame env s) as (Hm & _ & Hs);
      destruct (connectWebSocket_trace env s) as [l Ht]
  end.
  cbn -[messageFrame pendingEntry connectWebSocket sent].
  rewrite Hm, Hs. cbn -[messageFrame pendingEntry].
  split; [reflexivity|]. split.
  - unfold sent. rewrite !omap_app. cbn. rewrite !app_nil_r. reflexivity.
  - rewrite Ht. cbn. rewrite !in_app_iff. cbn. auto 10.
Qed.

(** C5.  A text send accepted while the socket is open appends a pending
    entry whose provisional identity is the clock reading, and does so
    before the frame is handed to [ws.send]; so does a file send whose
    upload succeeded.  When the socket is not open, [handleSendMessage]
    stores nothing and sends nothing: it keeps the draft text, sets the
    error "Connection lost. Trying to reconnect..." and calls
    [connectWebSocket], which opens a new socket when the constructor
    does not throw. *)
Theorem send_intent (env : Env) (upload : Rest) (st : State) (cu su : obj) :
  currentUser st = Some cu ->
  selectedUser st = Some su ->
  let st' := handleSendMessage env upload st in
  (ws st = Some OPEN -> files st = [] -> Text.trim (message st) <> "" ->
     let frame :=
       messageFrame su (Str (Text.trim (message st))) Null Null Null (dateNow env) in
     messages st' = (messages st ++ [pendingEntry env cu frame])%list
     /\ (pendingEntry env cu frame)@."temp_id" = Str (dateNow env)
     /\ newEffects st st' =
          [ SetMessages; ConsoleLog "Sending message via WebSocket:"; WsSend frame ]
     /\ message st' = "")
  /\ (ws st = Some OPEN ->
      forall f rest resp, files st = f :: rest -> upload = RestOk resp ->
      let frame :=
        messageFrame su (Str (message st) ||: Str "")
          resp@."url" resp@."media_type" resp@."filename" (dateNow env) in
      messages st' = (messages st ++ [pendingEntry env cu frame])%list
      /\ (pendingEntry env cu frame)@."temp_id" = Str (dateNow env)
      /\ newEffects st st' =
           [ HttpUpload f; SetMessages;
             ConsoleLog "Sending file message via WebSocket:"; WsSend frame ])
  /\ (ws st <> Some OPEN -> files st <> [] \/ Text.trim (message st) <> "" ->
      st' = connectWebSocket env
              (setError (Str "Connection lost. Trying to reconnect...")
                 (consoleError "WebSocket not connected" st))
      /\ messages st' = messages st
      /\ sent (trace st') = sent (trace st)
      /\ message st' = message st
      /\ (wsCtorOk env = true ->
            ws st' = Some CONNECTING
            /\ error st' = Str "Connection lost. Trying to reconnect..."
            /\ newEffects st st' =
                 [ ConsoleError "WebSocket not connected";
                   SetError (Str "Connection lost. Trying to reconnect...");
                   ConsoleLog "Initiating WebSocket connection to:"; WsNew ])).
Proof.
  intros Hcu Hsu st'. subst st'. unfold handleSendMessage. rewrite Hcu, Hsu.
  split; [|split].
  - intros Hws Hf Ht.
    rewrite Hf, (not_str_nonempty _ Ht), (wsOpen_true _ Hws). cbn -[messageFrame pendingEntry].
    unfold setMessages, appendPending. cbn -[messageFrame pendingEntry].
    split; [reflexivity|]. split; [reflexivity|]. split; [|reflexivity].
    apply newEffects_app. cbn -[messageFrame]. rewrite <- !app_assoc. reflexivity.
  - intros Hws f rest resp Hf Hup.
    rewrite Hf, (wsOpen_true _ Hws), andb_false_r. cbn -[messageFrame pendingEntry].
    unfold handleFileUpload. rewrite Hsu, Hup. cbn -[messageFrame pendingEntry].
    unfold setMessages, appendPending. cbn -[messageFrame pendingEntry].
    rewrite Hcu. cbn -[messageFrame pendingEntry].
    replace (wsOpen _) with true by (symmetry; apply wsOpen_true; exact Hws).
    cbn -[messageFrame pendingEntry].
    split; [reflexivity|]. split; [reflexivity|].
    apply newEffects_app. cbn -[messageFrame]. rewrite <- !app_assoc. reflexivity.
  - intros Hws Hsome.
    assert (Hgo : Js.not (Str (Text.trim (message st)))
                  && (length (files st) =? 0)%nat = false).
    { destruct Hsome as [Hf | Ht].
      - destruct (files st); [contradiction|]. apply andb_false_r.
      - rewrite (not_str_nonempty _ Ht). reflexivity. }
    rewrite Hgo, (wsOpen_false _ Hws). cbn [negb].
    split; [reflexivity|].
    destruct (connectWebSocket_frame env
                (setError (Str "Connection lost. Trying to reconnect...")
                   (consoleError "WebSocket not connected" st))) as (Hm & Hd & Hs).
    rewrite Hm, Hd, Hs. cbn.
    split; [reflexivity|]. split.
    { unfold sent. rewrite !omap_app. cbn. rewrite !app_nil_r. reflexivity. }
    split; [reflexivity|].
    intros Hok. unfold connectWebSocket. cbn. rewrite Hcu. cbn.
    replace (wsOpen _) with false by (symmetry; apply wsOpen_false; exact Hws).
    rewrite Hok. cbn. split; [reflexivity|]. split; [reflexivity|].
    apply newEffects_app. cbn. rewrite <- !app_assoc. reflexivity.
Qed.

(** ** The merge of an inbound message frame *)

Lemma or_truthy a b : truthy a = true -> a ||: b = a.
Proof. intros H. unfold Js.or. rewrite H. reflexivity. Qed.

Lemma or_falsy a b : truthy a = false -> a ||: b = b.
Proof. intros H. unfold Js.or. rewrite H. reflexivity. Qed.

(** [a || (a || b)] is [a || b]. *)
Lemma or_absorb a b : a ||: (a ||: b) = a ||: b.
Proof. unfold Js.or. destruct (truthy a); reflexivity. Qed.

Lemma or_same a : a ||: a = a.
Proof. unfold Js.or. destruct (truthy a); reflexivity. Qed.

(** [a || (a || b || c) || c] is [a || b || c]. *)
Lemma or_absorb3 a b c : a ||: (a ||: b ||: c) ||: c = a ||: b ||: c.
Proof.
  destruct (truthy a) eqn:Ha.
  - rewrite !(or_truthy a) by exact Ha. reflexivity.
  - rewrite !(or_falsy a) by exact Ha.
    destruct (truthy b) eqn:Hb.
    + rewrite !(or_truthy b) by exact Hb. reflexivity.
    + rewrite !(or_falsy b) by exact Hb. apply or_same.
Qed.

Lemma mediaTypeOf_truthy url t : mediaTypeOf url = Some t -> truthy t = true.
Proof.
  destruct url as [| |b|s]; cbn; intros [= <-]; try reflexivity.
  destruct (Text.imageRegex s); [reflexivity|].
  destruct (Text.videoRegex s); reflexivity.
Qed.

Lemma mediaTypeFor_truthy known url t :
  mediaTypeFor known url = Some t -> truthy t = true.
Proof.
  unfold mediaTypeFor. destruct (truthy known) eqn:Hk.
  - intros [= <-]. exact Hk.
  - apply mediaTypeOf_truthy.
Qed.

Lemma mediaTypeFor_total known url :
  is_Some (mediaTypeOf url) -> is_Some (mediaTypeFor known url).
Proof. unfold mediaTypeFor. destruct (truthy known); eauto. Qed.

Lemma updateEntry_Some cu data m u :
  updateEntry cu data m = Some u <->
  exists t, mediaTypeFor (data@."media_type" ||: m@."media_type") data@."media_url" = Some t
            /\ u = spread m (updateProps cu data m t).
Proof.
  unfold updateEntry, mediaTypeFor, updateProps. cbn zeta.
  destruct (if truthy (data@."media_type" ||: m@."media_type") then _ else _) as [t|];
    cbn; split.
  - intros [= <-]. eauto.
  - intros (t' & [= <-] & ->). reflexivity.
  - discriminate.
  - intros (t' & [=] & _).
Qed.

Lemma updateEntry_total cu data m :
  is_Some (mediaTypeOf data@."media_url") -> is_Some (updateEntry cu data m).
Proof.
  intros H.
  destruct (mediaTypeFor_total (data@."media_type" ||: m@."media_type") _ H) as [t Ht].
  exists (spread m (updateProps cu data m t)). apply updateEntry_Some. eauto.
Qed.

(** What an updated entry holds. *)
Lemma updateEntry_fields cu data m u :
  updateEntry cu data m = Some u ->
  u@."message_id" = data@."message_id" ||: m@."message_id"
  /\ u@."temp_id" = (if truthy data@."temp_id" then Undefined else m@."temp_id")
  /\ u@."text" = data@."text" ||: m@."text"
  /\ u@."media_url" = data@."media_url" ||: m@."media_url"
  /\ u@."file_name" = data@."file_name" ||: m@."file_name"
  /\ u@."created_at" = data@."created_at" ||: m@."created_at"
  /\ u@."sender_id" = data@."sender_id"
  /\ u@."receiver_id" = data@."receiver_id"
  /\ u@."sender_name" = data@."sender_name" ||: m@."sender_name" ||: cu?."username"
  /\ u@."edited" = data@."edited" ||: m@."edited" ||: Bool false
  /\ mediaTypeFor (data@."media_type" ||: m@."media_type") data@."media_url"
       = Some u@."media_type".
Proof.
  intros (t & Ht & ->)%updateEntry_Some.
  rewrite !get_spread. cbn. repeat split; try reflexivity. exact Ht.
Qed.

(** Updating an entry a second time with the same frame changes nothing. *)
Lemma updateEntry_idem cu data m u :
  updateEntry cu data m = Some u -> updateEntry cu data u = Some u.
Proof.
  intros Hu. pose proof (updateEntry_fields _ _ _ _ Hu)
    as (Hid & Htmp & Htxt & Hurl & Hfn & Hca & _ & _ & Hsn & Hed & Hmt).
  apply updateEntry_Some in Hu as (t & Ht & ->).
  assert (Htt : truthy t = true) by (eapply mediaTypeFor_truthy; exact Ht).
  rewrite get_spread in Hmt. cbn in Hmt.
  apply updateEntry_Some. exists t. split.
  - unfold mediaTypeFor. rewrite get_spread. cbn.
    destruct (truthy data@."media_type") eqn:Hd.
    + rewrite (or_truthy _ _ Hd), Hd.
      unfold mediaTypeFor in Ht. rewrite (or_truthy _ _ Hd), Hd in Ht. exact Ht.
    + rewrite (or_falsy _ _ Hd), Htt. reflexivity.
  - rewrite spread_overwrite by reflexivity.
    f_equal. set (u := spread m (updateProps cu data m t)) in *.
    unfold updateProps.
    rewrite Hid, Htmp, Htxt, Hurl, Hfn, Hca, Hsn, Hed.
    rewrite !or_absorb, !or_absorb3.
    destruct (truthy data@."temp_id"); reflexivity.
Qed.

Lemma mergeMessage_update cu su data prev :
  existsb (sameMessage data) prev = true ->
  mergeMessage cu su data prev = mapM (mergeStep cu data) prev.
Proof. intros H. unfold mergeMessage. rewrite H. reflexivity. Qed.

Lemma mergeMessage_append cu su data prev :
  existsb (sameMessage data) prev = false ->
  mergeMessage cu su data prev = (new ← newEntry cu su data; Some (prev ++ [new])%list).
Proof. intros H. unfold mergeMessage. rewrite H. reflexivity. Qed.

Lemma existsb_matched data prev :
  existsb (sameMessage data) prev = false <-> matched data prev = [].
Proof.
  unfold matched. induction prev as [|m prev IH]; cbn; [tauto|].
  destruct (sameMessage data m); cbn; [split; discriminate | exact IH].
Qed.

Lemma sameMessage_id data m :
  truthy data@."message_id" = true ->
  (m@."message_id" === data@."message_id") = true ->
  sameMessage data m = true.
Proof.
  intros Ht He. unfold sameMessage. rewrite He.
  apply seq_true in He. rewrite He, Ht. reflexivity.
Qed.

Lemma sameMessage_updated cu data m u :
  truthy data@."message_id" = true ->
  updateEntry cu data m = Some u ->
  u@."message_id" = data@."message_id" /\ sameMessage data u = true.
Proof.
  intros Ht Hu. apply updateEntry_fields in Hu as (Hid & _).
  rewrite (or_truthy _ _ Ht) in Hid. split; [exact Hid|].
  apply sameMessage_id; [exact Ht|]. apply seq_true, Hid.
Qed.

(** After an update, the entries with the frame's [message_id] are the
    entries the frame matched. *)
Lemma mergeStep_withId cu data prev l :
  truthy data@."message_id" = true ->
  Forall2 (fun m m' => mergeStep cu data m = Some m') prev l ->
  length (withId data l) = length (matched data prev).
Proof.
  intros Ht. unfold withId, matched, mergeStep.
  induction 1 as [|m m' prev l Hm _ IH]; cbn; [reflexivity|].
  destruct (sameMessage data m) eqn:Hs.
  - apply (sameMessage_updated _ _ _ _ Ht) in Hm as [Hid _].
    apply seq_true in Hid. rewrite Hid. cbn. rewrite IH. reflexivity.
  - injection Hm as <-.
    destruct (m@."message_id" === data@."message_id") eqn:He; [|exact IH].
    rewrite (sameMessage_id _ _ Ht He) in Hs. discriminate.
Qed.

(** Merging the frame a second time into the updated list rewrites
    nothing. *)
Lemma mergeStep_fixed cu data prev l :
  Forall2 (fun m m' => mergeStep cu data m = Some m') prev l ->
  mapM (mergeStep cu data) l = Some l.
Proof.
  intros H. apply mapM_Some. induction H as [|m m' prev l Hm _ IH]; constructor; [|exact IH].
  unfold mergeStep in *. destruct (sameMessage data m) eqn:Hs.
  - destruct (sameMessage data m'); [|reflexivity].
    eapply updateEntry_idem. exact Hm.
  - injection Hm as <-. rewrite Hs. reflexivity.
Qed.

Lemma existsb_updated cu data prev l :
  truthy data@."message_id" = true ->
  existsb (sameMessage data) prev = true ->
  Forall2 (fun m m' => mergeStep cu data m = Some m') prev l ->
  existsb (sameMessage data) l = true.
Proof.
  intros Ht He H. induction H as [|m m' prev l Hm _ IH]; cbn in *; [discriminate|].
  unfold mergeStep in Hm. destruct (sameMessage data m) eqn:Hs.
  - apply (sameMessage_updated _ _ _ _ Ht) in Hm as [_ ->]. reflexivity.
  - injection Hm as <-. rewrite Hs. cbn. apply IH. exact He.
Qed.

Lemma filter_unique {A} (f : A -> bool) (l : list A) i j x y :
  length (List.filter f l) <= 1 ->
  l !! i = Some x -> l !! j = Some y -> f x = true -> f y = true -> i = j.
Proof.
  revert i j. induction l as [|a l IH]; intros i j Hlen Hi Hj Hx Hy; [discriminate|].
  cbn in Hlen. destruct (f a) eqn:Ha.
  - cbn in Hlen.
    assert (Hnil : List.filter f l = []) by (destruct (List.filter f l); [reflexivity | cbn in Hlen; lia]).
    assert (Hnone : forall k z, l !! k = Some z -> f z = true -> False).
    { intros k z Hk Hz.
      assert (Hin : In z (List.filter f l)).
      { apply filter_In. split; [|exact Hz]. apply list_elem_of_In.
        eapply list_elem_of_lookup_2. exact Hk. }
      rewrite Hnil in Hin. exact Hin. }
    destruct i as [|i], j as [|j]; cbn in Hi, Hj; try reflexivity; exfalso; eauto.
  - destruct i as [|i], j as [|j]; cbn in Hi, Hj.
    + reflexivity.
    + injection Hi as <-. congruence.
    + injection Hj as <-. congruence.
    + f_equal. eapply IH; eauto.
Qed.

Lemma mergeStep_lookup cu data prev l i (m : obj) :
  Forall2 (fun m m' => mergeStep cu data m = Some m') prev l ->
  prev !! i = Some m ->
  exists m' : obj, l !! i = Some m' /\ mergeStep cu data m = Some m'.
Proof.
  intros H Hi. destruct (Forall2_lookup_l _ _ _ _ _ H Hi) as (m' & Hl & Hm). eauto.
Qed.

(** ** Identity promotion *)

(** C2.  Let an inbound message frame carry a [temp_id] and a
    [message_id], and let some entry of the list have that [temp_id].
    Then the merge keeps the length of the list and rewrites in place
    every entry the frame matches (by [temp_id] or by [message_id]): the
    entry takes the frame's [message_id] and loses its [temp_id]; the
    other entries are untouched.  The entries with the frame's
    [message_id] afterwards are as many as the entries the frame matched;
    so when the provisional entry is the only match, no two entries share
    the canonical identity.  The merge returns a list whenever the
    frame's [media_url] is a text or absent. *)
Theorem identity_promotion (cu su : option obj) (data : obj) (prev : list obj) :
  truthy data@."temp_id" = true ->
  truthy data@."message_id" = true ->
  Exists (fun m : obj => m@."temp_id" = data@."temp_id") prev ->
  (is_Some (mediaTypeOf data@."media_url") -> is_Some (mergeMessage cu su data prev))
  /\ forall l, mergeMessage cu su data prev = Some l ->
       length l = length prev
       /\ (forall i (m : obj), prev !! i = Some m ->
             exists m' : obj,
               l !! i = Some m'
               /\ if sameMessage data m
                  then m'@."message_id" = data@."message_id" /\ m'@."temp_id" = Undefined
                  else m' = m)
       /\ length (withId data l) = length (matched data prev)
       /\ (length (matched data prev) = 1 ->
             forall i j (mi mj : obj), l !! i = Some mi -> l !! j = Some mj ->
               mi@."message_id" = data@."message_id" ->
               mj@."message_id" = data@."message_id" -> i = j).
Proof.
  intros Htmp Hid Hex.
  assert (He : existsb (sameMessage data) prev = true).
  { apply existsb_exists. apply Exists_exists in Hex as (m & Hin & Hm).
    exists m. split; [apply list_elem_of_In; exact Hin|].
    unfold sameMessage. rewrite Hm, Htmp, seq_refl. apply orb_true_r. }
  rewrite (mergeMessage_update _ _ _ _ He). split.
  - intros Hurl. apply mapM_is_Some, Forall_forall. intros m _. cbn.
    unfold mergeStep. destruct (sameMessage data m); [|eauto].
    apply updateEntry_total, Hurl.
  - intros l Hl. apply mapM_Some in Hl.
    pose proof (mergeStep_withId _ _ _ _ Hid Hl) as Hcount.
    split; [symmetry; eapply Forall2_length; exact Hl|].
    split; [|split; [exact Hcount|]].
    + intros i m Hi.
      destruct (mergeStep_lookup _ _ _ _ _ _ Hl Hi) as (m' & Hl' & Hm').
      exists m'. split; [exact Hl'|].
      unfold mergeStep in Hm'. destruct (sameMessage data m).
      * apply updateEntry_fields in Hm' as (Hmid & Htid & _).
        rewrite (or_truthy _ _ Hid) in Hmid. rewrite Htmp in Htid. auto.
      * congruence.
    + intros Hone i j mi mj Hi Hj Hmi Hmj.
      apply (filter_unique (fun m : obj => m@."message_id" === data@."message_id")
               l i j mi mj); try assumption.
      * fold (withId data l). lia.
      * apply seq_true, Hmi.
      * apply seq_true, Hmj.
Qed.

(** C2 as stated fails.  (1) Two sends within one millisecond get the same
    [temp_id]; the echo of the first matches both pending entries, both are
    rewritten, and the list ends with two entries of canonical identity
    "m1".  (2) The same happens when the list already holds the canonical
    copy "m1" next to the pending entry: the echo matches the one by
    [message_id] and the other by [temp_id]. *)
Lemma identity_promotion_duplicates :
  (map (fun m : obj => (m@."message_id", m@."temp_id", m@."text")) twoPending =
     [ (Str "1700000000000", Str "1700000000000", Str "first");
       (Str "1700000000000", Str "1700000000000", Str "second") ]
   /\ truthy echoFirst@."temp_id" = true
   /\ truthy echoFirst@."message_id" = true
   /\ (map (fun m : obj => (m@."message_id", m@."temp_id", m@."text"))
         <$> mergeMessage (Some alice) (Some bob) echoFirst twoPending) =
        Some [ (Str "m1", Undefined, Str "first"); (Str "m1", Undefined, Str "first") ])
  /\ (map (fun m : obj => (m@."message_id", m@."temp_id"))
        (sentFirst :: take 1 twoPending) =
        [ (Str "m1", Undefined); (Str "1700000000000", Str "1700000000000") ]
      /\ (map (fun m : obj => (m@."message_id", m@."temp_id"))
            <$> mergeMessage (Some alice) (Some bob) echoFirst
                  (sentFirst :: take 1 twoPending)) =
           Some [ (Str "m1", Undefined); (Str "m1", Undefined) ]).
Proof. repeat split; vm_compute; reflexivity. Qed.

Lemma identity_promotion_witness :
  exists l, mergeMessage (Some alice) (Some bob) echoFirst (take 1 twoPending) = Some l
            /\ length l = 1.
Proof.
  assert (H1 : truthy echoFirst@."temp_id" = true) by reflexivity.
  assert (H2 : truthy echoFirst@."message_id" = true) by reflexivity.
  assert (H3 : Exists (fun m : obj => m@."temp_id" = echoFirst@."temp_id")
                 (take 1 twoPending)).
  { apply Exists_cons_hd. vm_compute. reflexivity. }
  destruct (identity_promotion (Some alice) (Some bob) echoFirst (take 1 twoPending)
              H1 H2 H3) as [Htot Hall].
  destruct Htot as [l Hl]; [vm_compute; eauto|].
  exists l. split; [exact Hl|]. apply (Hall l Hl).
Defined.

(** ** Delivering a frame twice *)

Lemma newEntry_Some cu su data n :
  newEntry cu su data = Some n <->
  exists sn t,
    senderNameFor cu su data = Some sn
    /\ mediaTypeFor data@."media_type" data@."media_url" = Some t
    /\ n = spread data (newProps data sn t).
Proof.
  unfold newEntry, senderNameFor, mediaTypeFor, newProps.
  destruct (if truthy data@."sender_name" then _ else _) as [sn|]; cbn.
  - destruct (if truthy data@."media_type" then _ else _) as [t|]; cbn; split.
    + intros [= <-]. eauto.
    + intros (sn' & t' & [= <-] & [= <-] & ->). reflexivity.
    + discriminate.
    + intros (sn' & t' & _ & [=] & _).
  - split; [discriminate | intros (sn' & t' & [=] & _)].
Qed.

Lemma newEntry_total c su data :
  is_Some (mediaTypeOf data@."media_url") -> is_Some (newEntry (Some c) su data).
Proof.
  intros H. destruct (mediaTypeFor_total data@."media_type" _ H) as [t Ht].
  assert (Hs : is_Some (senderNameFor (Some c) su data)).
  { unfold senderNameFor. destruct (truthy _); [eauto|]. destruct (_ === _); eauto. }
  destruct Hs as [sn Hs].
  exists (spread data (newProps data sn t)). apply newEntry_Some. eauto.
Qed.

Lemma sameReads_refl a : sameReads a a.
Proof. intros k. reflexivity. Qed.

(** Updating a freshly inserted entry with the frame that inserted it:
    every property reads as before, except possibly [sender_name]. *)
Lemma newEntry_update cu su data n :
  truthy data@."message_id" = true ->
  newEntry cu su data = Some n ->
  n@."message_id" = data@."message_id"
  /\ sameMessage data n = true
  /\ exists u,
       updateEntry cu data n = Some u
       /\ (forall k, k <> "sender_name" -> u@.k = n@.k)
       /\ u@."sender_name" = data@."sender_name" ||: n@."sender_name" ||: cu?."username".
Proof.
  intros Hid (sn & t & Hsn & Ht & ->)%newEntry_Some.
  set (n := spread data (newProps data sn t)).
  assert (Htt : truthy t = true) by (eapply mediaTypeFor_truthy; exact Ht).
  assert (Nid : n@."message_id" = data@."message_id").
  { unfold n. rewrite get_spread. cbn. apply or_truthy, Hid. }
  assert (Ntmp : n@."temp_id" = if truthy data@."temp_id" then Undefined else data@."temp_id").
  { unfold n. rewrite get_spread. reflexivity. }
  assert (Nmt : n@."media_type" = t) by (unfold n; rewrite get_spread; reflexivity).
  assert (Ned : n@."edited" = data@."edited" ||: Bool false)
    by (unfold n; rewrite get_spread; reflexivity).
  assert (Nkey : n@."key" = generateMessageKey data)
    by (unfold n; rewrite get_spread; reflexivity).
  assert (Nsame : forall k, lastProp k (newProps data sn t) = None -> n@.k = data@.k).
  { intros k Hk. unfold n. rewrite get_spread, Hk. reflexivity. }
  split; [exact Nid|]. split; [apply sameMessage_id; [exact Hid | apply seq_true, Nid]|].
  exists (spread n (updateProps cu data n t)). split; [|split].
  - apply updateEntry_Some. exists t. split; [|reflexivity].
    unfold mediaTypeFor. rewrite Nmt.
    destruct (truthy data@."media_type") eqn:Hd.
    + rewrite (or_truthy _ _ Hd), Hd.
      unfold mediaTypeFor in Ht. rewrite Hd in Ht. exact Ht.
    + rewrite (or_falsy _ _ Hd), Htt. reflexivity.
  - intros k Hk. rewrite get_spread. unfold updateProps. cbn [lastProp].
    destruct (String.eqb_spec "key" k) as [<-|_]; [symmetry; exact Nkey|].
    destruct (String.eqb_spec "edited" k) as [<-|_].
    { rewrite Ned, or_absorb.
      destruct (truthy data@."edited") eqn:He.
      - rewrite !(or_truthy _ _ He). reflexivity.
      - rewrite !(or_falsy _ _ He). reflexivity. }
    destruct (String.eqb_spec "sender_name" k) as [<-|_]; [contradiction|].
    destruct (String.eqb_spec "receiver_id" k) as [<-|_]; [symmetry; apply Nsame; reflexivity|].
    destruct (String.eqb_spec "sender_id" k) as [<-|_]; [symmetry; apply Nsame; reflexivity|].
    destruct (String.eqb_spec "created_at" k) as [<-|_].
    { rewrite (Nsame "created_at" eq_refl). apply or_same. }
    destruct (String.eqb_spec "file_name" k) as [<-|_].
    { rewrite (Nsame "file_name" eq_refl). apply or_same. }
    destruct (String.eqb_spec "media_type" k) as [<-|_]; [symmetry; exact Nmt|].
    destruct (String.eqb_spec "media_url" k) as [<-|_].
    { rewrite (Nsame "media_url" eq_refl). apply or_same. }
    destruct (String.eqb_spec "text" k) as [<-|_].
    { rewrite (Nsame "text" eq_refl). apply or_same. }
    destruct (String.eqb_spec "temp_id" k) as [<-|_].
    { rewrite Ntmp. destruct (truthy data@."temp_id"); reflexivity. }
    destruct (String.eqb_spec "message_id" k) as [<-|_].
    { rewrite Nid. apply or_same. }
    reflexivity.
  - rewrite get_spread. reflexivity.
Qed.

(** When the second update leaves the sender's name alone. *)
Lemma newEntry_sender_name cu su data n :
  newEntry cu su data = Some n ->
  truthy data@."sender_name" = true
  \/ data@."sender_id" = cu?."id"
  \/ truthy su?."username" = true ->
  data@."sender_name" ||: n@."sender_name" ||: cu?."username" = n@."sender_name".
Proof.
  intros (sn & t & Hsn & _ & ->)%newEntry_Some Hc.
  rewrite get_spread. cbn. unfold senderNameFor in Hsn.
  destruct (truthy data@."sender_name") eqn:Hd.
  - injection Hsn as <-. rewrite (or_truthy _ _ Hd). apply or_truthy, Hd.
  - rewrite (or_falsy _ _ Hd).
    destruct (data@."sender_id" === cu?."id") eqn:He.
    + destruct cu as [c|]; [|discriminate]. injection Hsn as <-. apply or_same.
    + injection Hsn as <-.
      destruct Hc as [Hc | [Hc | Hc]].
      * discriminate.
      * apply seq_false in He. contradiction.
      * apply or_truthy, Hc.
Qed.

Lemma unmatched_withId data m :
  truthy data@."message_id" = true ->
  sameMessage data m = false ->
  (m@."message_id" === data@."message_id") = false.
Proof.
  intros Ht Hs. destruct (m@."message_id" === data@."message_id") eqn:He; [|reflexivity].
  rewrite (sameMessage_id _ _ Ht He) in Hs. discriminate.
Qed.

Lemma unmatched_fixed cu data prev :
  matched data prev = [] ->
  Forall2 (fun m m' => mergeStep cu data m = Some m') prev prev.
Proof.
  unfold matched, mergeStep. induction prev as [|m prev IH]; cbn; [constructor|].
  destruct (sameMessage data m) eqn:Hs; [discriminate|].
  intros H. constructor; [rewrite Hs; reflexivity | apply IH, H].
Qed.

Lemma unmatched_no_id data prev :
  truthy data@."message_id" = true ->
  matched data prev = [] -> withId data prev = [].
Proof.
  intros Ht. unfold matched, withId. induction prev as [|m prev IH]; cbn; [reflexivity|].
  destruct (sameMessage data m) eqn:Hs; [discriminate|].
  rewrite (unmatched_withId _ _ Ht Hs). exact IH.
Qed.

Lemma mergeStep_matched cu data prev l :
  truthy data@."message_id" = true ->
  Forall2 (fun m m' => mergeStep cu data m = Some m') prev l ->
  matched data l = withId data l.
Proof.
  intros Ht. unfold matched, withId.
  induction 1 as [|m m' prev l Hm _ IH]; cbn; [reflexivity|].
  unfold mergeStep in Hm. destruct (sameMessage data m) eqn:Hs.
  - apply (sameMessage_updated _ _ _ _ Ht) in Hm as [Hid ->].
    apply seq_true in Hid. rewrite Hid, IH. reflexivity.
  - injection Hm as <-. rewrite Hs, (unmatched_withId _ _ Ht Hs). exact IH.
Qed.

(** After a merge, the entries the frame matches are the entries with
    its [message_id]. *)
Lemma merged_matched cu su data prev l :
  truthy data@."message_id" = true ->
  mergeMessage cu su data prev = Some l ->
  matched data l = withId data l.
Proof.
  intros Ht Hl.
  destruct (existsb (sameMessage data) prev) eqn:He.
  - rewrite (mergeMessage_update _ _ _ _ He) in Hl. apply mapM_Some in Hl.
    eapply mergeStep_matched; eassumption.
  - rewrite (mergeMessage_append _ _ _ _ He) in Hl.
    destruct (newEntry cu su data) as [n|] eqn:Hn; [|discriminate].
    cbn in Hl. injection Hl as <-.
    destruct (newEntry_update _ _ _ _ Ht Hn) as (Nid & Ns & _).
    apply existsb_matched in He. unfold matched, withId.
    rewrite !List.filter_app. cbn. rewrite Ns. apply seq_true in Nid. rewrite Nid.
    fold (matched data prev). fold (withId data prev).
    rewrite He, (unmatched_no_id _ _ Ht He). reflexivity.
Qed.

(** The merge returns a list when there is a current user and the
    frame's [media_url] is a text or absent. *)
Lemma mergeMessage_total c su data prev :
  is_Some (mediaTypeOf data@."media_url") ->
  is_Some (mergeMessage (Some c) su data prev).
Proof.
  intros Hurl. unfold mergeMessage. destruct (existsb (sameMessage data) prev).
  - apply mapM_is_Some, Forall_forall. intros m _. cbn.
    destruct (sameMessage data m); [|eauto]. apply updateEntry_total, Hurl.
  - destruct (newEntry_total c su data Hurl) as [n ->]. cbn. eauto.
Qed.

(** The second delivery of a frame: it takes the update path. *)
Lemma second_merge cu su data prev l1 :
  truthy data@."message_id" = true ->
  mergeMessage cu su data prev = Some l1 ->
  exists l2,
    mergeMessage cu su data l1 = Some l2
    /\ Forall2 (fun m m' => mergeStep cu data m = Some m') l1 l2
    /\ (matched data prev <> []
        \/ truthy data@."sender_name" = true
        \/ data@."sender_id" = cu?."id"
        \/ truthy su?."username" = true ->
        Forall2 sameReads l1 l2).
Proof.
  intros Ht Hl1. destruct (existsb (sameMessage data) prev) eqn:He.
  - rewrite (mergeMessage_update _ _ _ _ He) in Hl1. apply mapM_Some in Hl1.
    pose proof (mergeStep_fixed _ _ _ _ Hl1) as Hfix.
    exists l1. split; [|split].
    + rewrite mergeMessage_update; [exact Hfix|].
      eapply existsb_updated; eassumption.
    + apply mapM_Some, Hfix.
    + intros _. apply Forall2_same_length_lookup. split; [reflexivity|].
      intros i x y Hx Hy. rewrite Hx in Hy. injection Hy as <-. apply sameReads_refl.
  - rewrite (mergeMessage_append _ _ _ _ He) in Hl1.
    destruct (newEntry cu su data) as [n|] eqn:Hn; [|discriminate].
    cbn in Hl1. injection Hl1 as <-.
    destruct (newEntry_update _ _ _ _ Ht Hn) as (Nid & Ns & u & Hu & Hk & Hsn).
    pose proof He as Hnone. apply existsb_matched in Hnone.
    assert (Hstep : Forall2 (fun m m' => mergeStep cu data m = Some m')
                      (prev ++ [n]) (prev ++ [u])).
    { apply Forall2_app; [apply unmatched_fixed, Hnone|].
      constructor; [|constructor]. unfold mergeStep. rewrite Ns. exact Hu. }
    exists (prev ++ [u])%list. split; [|split].
    + rewrite mergeMessage_update.
      * apply mapM_Some, Hstep.
      * rewrite existsb_app. cbn. rewrite Ns. apply orb_true_r.
    + exact Hstep.
    + intros [Hc | Hc]; [contradiction|].
      apply Forall2_app.
      * apply Forall2_same_length_lookup. split; [reflexivity|].
        intros i x y Hx Hy. rewrite Hx in Hy. injection Hy as <-. apply sameReads_refl.
      * constructor; [|constructor]. intros k.
        destruct (String.eqb_spec k "sender_name") as [->|Hne].
        -- rewrite Hsn. symmetry. eapply newEntry_sender_name; eassumption.
        -- symmetry. apply Hk, Hne.
Qed.

(** C3.  Let an inbound message frame carry a [message_id].  Its first
    merge into a list returns a list when there is a current user and the
    frame's [media_url] is a text or absent; and whenever the first merge
    returns, the second merge of the same frame returns too and adds no
    entry: the list keeps its length and its number of entries with that
    [message_id], which is one when at most one entry of the original
    list matched the frame.  On an entry the frame matches, each merged
    property takes the frame's value when that value is truthy (not
    [undefined], [null], [false] or the empty text) and keeps the stored
    one otherwise; other entries are untouched.  The second merge changes
    no property of any entry when the first one updated an existing
    entry, or the frame carries a [sender_name], or its sender is the
    current user, or the selected user has a non-empty [username]. *)
Theorem redelivery_merged (cu su : option obj) (data : obj) (prev : list obj) :
  truthy data@."message_id" = true ->
  (forall c, cu = Some c -> is_Some (mediaTypeOf data@."media_url") ->
     is_Some (mergeMessage cu su data prev))
  /\ forall l1, mergeMessage cu su data prev = Some l1 ->
     exists l2,
       mergeMessage cu su data l1 = Some l2
       /\ length l2 = length l1
       /\ length (withId data l2) = length (withId data l1)
       /\ (length (matched data prev) <= 1 -> length (withId data l1) = 1)
       /\ (forall i (m : obj), l1 !! i = Some m ->
             exists u : obj,
               l2 !! i = Some u
               /\ if sameMessage data m then
                    u@."message_id" = data@."message_id"
                    /\ u@."text" = data@."text" ||: m@."text"
                    /\ u@."media_url" = data@."media_url" ||: m@."media_url"
                    /\ u@."file_name" = data@."file_name" ||: m@."file_name"
                    /\ u@."created_at" = data@."created_at" ||: m@."created_at"
                    /\ u@."edited" = data@."edited" ||: m@."edited" ||: Bool false
                  else u = m)
       /\ (matched data prev <> []
           \/ truthy data@."sender_name" = true
           \/ data@."sender_id" = cu?."id"
           \/ truthy su?."username" = true ->
           Forall2 sameReads l1 l2).
Proof.
  intros Ht. split; [intros c -> Hurl; apply mergeMessage_total, Hurl|].
  intros l1 Hl1.
  destruct (second_merge _ _ _ _ _ Ht Hl1) as (l2 & Hl2 & Hstep & Hsame).
  exists l2. split; [exact Hl2|].
  split; [symmetry; eapply Forall2_length; exact Hstep|].
  split; [|split; [|split; [|exact Hsame]]].
  - rewrite (mergeStep_withId _ _ _ _ Ht Hstep), (merged_matched _ _ _ _ _ Ht Hl1).
    reflexivity.
  - intros Hle. destruct (existsb (sameMessage data) prev) eqn:He.
    + rewrite (mergeMessage_update _ _ _ _ He) in Hl1. apply mapM_Some in Hl1.
      rewrite (mergeStep_withId _ _ _ _ Ht Hl1).
      destruct (matched data prev) eqn:Hm; [|cbn in *; lia].
      apply existsb_matched in Hm. congruence.
    + rewrite (mergeMessage_append _ _ _ _ He) in Hl1.
      destruct (newEntry cu su data) as [n|] eqn:Hn; [|discriminate].
      cbn in Hl1. injection Hl1 as <-.
      destruct (newEntry_update _ _ _ _ Ht Hn) as (Nid & _).
      apply existsb_matched in He. unfold withId. rewrite List.filter_app.
      fold (withId data prev). rewrite (unmatched_no_id _ _ Ht He). cbn.
      apply seq_true in Nid. rewrite Nid. reflexivity.
  - intros i m Hi.
    destruct (mergeStep_lookup _ _ _ _ _ _ Hstep Hi) as (u & Hu & Hm).
    exists u. split; [exact Hu|].
    unfold mergeStep in Hm. destruct (sameMessage data m).
    + apply updateEntry_fields in Hm
        as (Hid & _ & Htxt & Hurl & Hfn & Hca & _ & _ & _ & Hed & _).
      rewrite (or_truthy _ _ Ht) in Hid. auto 10.
    + congruence.
Qed.

(** C3 as stated fails in three ways.  (1) Carol's message, delivered
    twice to the handler, is stored once, but the second delivery rewrites
    the sender's name from [undefined] to Alice's own name: the second
    application is not idempotent.  (2) An incoming empty text and an
    incoming [edited: false] are not null, yet the stored values win.
    (3) On a list with two entries the frame matches, two deliveries leave
    two entries with the frame's [message_id]. *)
Lemma redelivery_not_idempotent :
  (map (fun m : obj => (m@."message_id", m@."sender_name")) (messages carolOnce) =
     [ (Str "m7", Undefined) ]
   /\ map (fun m : obj => (m@."message_id", m@."sender_name")) (messages carolTwice) =
        [ (Str "m7", Str "alice") ])
  /\ (map (fun m : obj => (m@."text", m@."edited"))
        <$> mergeMessage (Some alice) (Some carol) fromCarolBlank [carolEdited]) =
       Some [ (Str "hello!", Bool true) ]
  /\ (l1 ← mergeMessage (Some alice) (Some bob) echoFirst twoPending;
      l2 ← mergeMessage (Some alice) (Some bob) echoFirst l1;
      Some (length (withId echoFirst l2))) = Some 2.
Proof. repeat split; vm_compute; reflexivity. Qed.

Lemma redelivery_merged_witness :
  exists l1 l2,
    mergeMessage (Some alice) (Some bob) echoFirst (take 1 twoPending) = Some l1
    /\ mergeMessage (Some alice) (Some bob) echoFirst l1 = Some l2
    /\ length (withId echoFirst l2) = 1.
Proof.
  assert (H1 : truthy echoFirst@."message_id" = true) by reflexivity.
  assert (H2 : is_Some (mediaTypeOf echoFirst@."media_url")) by (vm_compute; eauto).
  assert (H3 : length (matched echoFirst (take 1 twoPending)) <= 1)
    by (vm_compute; lia).
  destruct (redelivery_merged (Some alice) (Some bob) echoFirst (take 1 twoPending) H1)
    as [Htot Hsecond].
  destruct (Htot alice eq_refl H2) as [l1 Hl1].
  destruct (Hsecond l1 Hl1) as (l2 & Hl2 & _ & Hn & Hone & _).
  exists l1, l2. split; [exact Hl1|]. split; [exact Hl2|].
  rewrite Hn. apply Hone. exact H3.
Defined.

(** ** Order of the list *)








(** A fetched snapshot does not go through the merge: it replaces the
    list, in the order the server returned it. *)
Lemma fetchMessagesDone_replaces data st :
  messages (fetchMessagesDone data st) =
    map (fun msg => spread msg [ ("key", generateMessageKey msg) ]) data.
Proof. reflexivity. Qed.

(** ** Reverting a failed edit *)

(** The update under "Revert optimistic update on failure" reads the text
    and the flag of the entry it is given, which already holds the
    optimistic values: it restores neither. *)
Lemma revertEdit_keeps messageId prev :
  map (fun m : obj => (m@."message_id", m@."text")) (revertEdit messageId prev) =
  map (fun m : obj => (m@."message_id", m@."text")) prev.
Proof.
  unfold revertEdit. rewrite map_map. apply map_ext. intros m.
  destruct (m@."message_id" === messageId); [|reflexivity].
  rewrite !get_spread. reflexivity.
Qed.

(** C1 on the code: the PUT fails, the revert step runs, and the entry
    still holds the new text and [edited: true]. *)
Lemma failed_edit_not_reverted :
  map (fun m : obj => (m@."message_id", m@."text", m@."edited")) (messages offlineEditing) =
    [ (Str "m1", Str "first", Bool false) ]
  /\ map (fun m : obj => (m@."message_id", m@."text", m@."edited"))
       (messages (handleEditMessage clock (RestFail Undefined) (Str "m1") offlineEditing)) =
       [ (Str "m1", Str "changed", Bool true) ]
  /\ trace (handleEditMessage clock (RestFail Undefined) (Str "m1") offlineEditing) =
       [ SetMessages;
         ConsoleWarn "WebSocket not connected, using API fallback for edit";
         SetError (Str "Connection lost. Saving edit via API...");
         HttpPut (Str "m1") "changed";
         ConsoleError "Error editing message via API:";
         SetError (Str "Failed to edit message. Please try again.");
         SetMessages;
         ConsoleLog "Initiating WebSocket connection to:";
         WsNew ].
Proof. repeat split; vm_compute; reflexivity. Qed.

(** ** Concrete runs of the handlers *)

(** C5 as stated fails: with the socket closed, [handleSendMessage] stops
    at line 545 and appends no pending entry; the list is as before. *)
Lemma send_offline_stores_nothing :
  Text.trim (message offlineDraft) = "hello"
  /\ ws offlineDraft = Some CLOSED
  /\ messages (handleSendMessage clock (RestFail Undefined) offlineDraft) = [sentFirst]
  /\ message (handleSendMessage clock (RestFail Undefined) offlineDraft) = "hello"
  /\ trace (handleSendMessage clock (RestFail Undefined) offlineDraft) =
       [ ConsoleError "WebSocket not connected";
         SetError (Str "Connection lost. Trying to reconnect...");
         ConsoleLog "Initiating WebSocket connection to:";
         WsNew ].
Proof. repeat split; vm_compute; reflexivity. Qed.

Lemma send_intent_witness :
  length (messages (handleSendMessage clock (RestFail Undefined) (chatting "first" []))) = 1
  /\ messages (handleSendMessage clock (RestFail Undefined) offlineDraft) =
       messages offlineDraft.
Proof.
  destruct (send_intent clock (RestFail Undefined) (chatting "first" []) alice bob
              eq_refl eq_refl) as (Hopen & _ & _).
  destruct (send_intent clock (RestFail Undefined) offlineDraft alice bob
              eq_refl eq_refl) as (_ & _ & Hclosed).
  split.
  - destruct Hopen as (Hm & _); [reflexivity | reflexivity | vm_compute; discriminate |].
    rewrite Hm. reflexivity.
  - destruct Hclosed as (_ & Hm & _); [discriminate | right; vm_compute; discriminate |].
    exact Hm.
Defined.

(** C7 as stated fails: Carol's well-formed message arrives while Bob's
    conversation is open; it is dropped, but nothing is surfaced: no
    [setError], no [console.warn] or [console.error], only [console.log]. *)
Lemma stray_frame_only_logged :
  invalidParticipants fromCarol = false
  /\ matchesChat (chatting "" []) fromCarol = false
  /\ messages (onmessage clock (Some fromCarol) (chatting "" [])) = []
  /\ error (onmessage clock (Some fromCarol) (chatting "" [])) = Str ""
  /\ trace (onmessage clock (Some fromCarol) (chatting "" [])) =
       [ ConsoleLog "Received WebSocket message:";
         ConsoleLog "Processing message:";
         ConsoleLog "Message ignored, does not match current chat:" ]
  /\ surfaced (chatting "" []) (onmessage clock (Some fromCarol) (chatting "" [])) = false.
Proof. repeat split; vm_compute; reflexivity. Qed.

Lemma message_frame_filter_witness :
  messages (onmessage clock (Some fromCarol) (chatting "" [])) = messages (chatting "" [])
  /\ error (onmessage clock (Some fromCarol) (chatting "" [])) = error (chatting "" []).
Proof.
  destruct (message_frame_filter clock fromCarol (chatting "" []) eq_refl)
    as (_ & _ & Hstray & _).
  destruct Hstray as (Hm & He & _).
  - split; vm_compute; reflexivity.
  - intros [[H _] | [_ H]]; vm_compute in H; discriminate.
  - split; assumption.
Defined.

Lemma edit_delete_frames_witness :
  messages (onmessage clock (Some editUnknown) (withCarol [carolEdited])) = [carolEdited].
Proof.
  destruct (edit_delete_frames clock editUnknown (withCarol [carolEdited])) as [Hedit _].
  destruct (Hedit eq_refl) as (Hnoop & _).
  apply Hnoop. repeat constructor. vm_compute. discriminate.
Defined.

Lemma error_frame_classified_witness :
  token (onmessage clock (Some tokenExpired) (chatting "" [])) = None.
Proof.
  destruct (error_frame_classified clock tokenExpired (chatting "" []) eq_refl)
    as (_ & H).
  change (tokenExpired@."error") with (Str "Invalid token: expired") in H.
  destruct H as (_ & Hauth & _).
  apply Hauth. left. exists "", ": expired". reflexivity.
Defined.

Lemma blank_intent_rejected_witness :
  messages (handleSendMessage clock (RestFail Undefined) (chatting "   " [sentFirst])) =
    [sentFirst]
  /\ messages (handleEditMessage clock (RestFail Undefined) (Str "m1")
                 (chatting "" [sentFirst])) = [sentFirst].
Proof.
  destruct (blank_intent_rejected clock (RestFail Undefined) (RestFail Undefined) (Str "m1")
              (chatting "   " [sentFirst])) as [Hsend _].
  destruct (blank_intent_rejected clock (RestFail Undefined) (RestFail Undefined) (Str "m1")
              (chatting "" [sentFirst])) as [_ Hedit].
  split.
  - apply (Hsend eq_refl eq_refl).
  - apply (Hedit eq_refl).
Defined.

(** * Further properties of the component *)

(** ** What a handler leaves alone *)

Lemma session_emit e st : session (emit e st) = session st.
Proof. reflexivity. Qed.

Lemma session_consoleLog m st : session (consoleLog m st) = session st.
Proof. reflexivity. Qed.

Lemma session_consoleWarn m st : session (consoleWarn m st) = session st.
Proof. reflexivity. Qed.

Lemma session_consoleError m st : session (consoleError m st) = session st.
Proof. reflexivity. Qed.

Lemma session_setError v st : session (setError v st) = session st.
Proof. reflexivity. Qed.

Lemma session_navigate p st : session (navigate p st) = session st.
Proof. reflexivity. Qed.

Lemma session_wsSend f st : session (wsSend f st) = session st.
Proof. reflexivity. Qed.

Lemma session_wsClose st : session (wsClose st) = session st.
Proof. reflexivity. Qed.

Lemma session_set_message x st : session (set_message x st) = session st.
Proof. reflexivity. Qed.

Lemma session_set_messages x st : session (set_messages x st) = session st.
Proof. reflexivity. Qed.

Lemma session_set_files x st : session (set_files x st) = session st.
Proof. reflexivity. Qed.

Lemma session_set_editText x st : session (set_editText x st) = session st.
Proof. reflexivity. Qed.

Lemma session_set_editingMessageId x st : session (set_editingMessageId x st) = session st.
Proof. reflexivity. Qed.

Lemma session_set_uploadingFile x st : session (set_uploadingFile x st) = session st.
Proof. reflexivity. Qed.

Lemma session_set_connectionStatus x st : session (set_connectionStatus x st) = session st.
Proof. reflexivity. Qed.

Lemma session_set_ws x st : session (set_ws x st) = session st.
Proof. reflexivity. Qed.

Lemma session_setMessages f st : session (setMessages f st) = session st.
Proof. unfold setMessages. destruct (f (messages st)); reflexivity. Qed.

Lemma session_connectWebSocket env st : session (connectWebSocket env st) = session st.
Proof.
  unfold connectWebSocket.
  destruct (isNull (currentUser st) || wsOpen st); [|destruct (wsCtorOk env)]; reflexivity.
Qed.

Create Rewrite HintDb session_db.

#[local] Hint Rewrite session_emit session_consoleLog session_consoleWarn
  session_consoleError session_setError session_navigate session_wsSend session_wsClose
  session_set_message session_set_messages session_set_files session_set_editText
  session_set_editingMessageId session_set_uploadingFile session_set_connectionStatus
  session_set_ws session_setMessages session_connectWebSocket : session_db.

Ltac session_solve :=
  repeat first
    [ progress autorewrite with session_db
    | progress cbv beta iota zeta
    | match goal with
      | |- context [session (if ?b then _ else _)] => destruct b
      | |- context [session (match ?x with _ => _ end)] => destruct x
      end ];
  try reflexivity.

Lemma session_handleFileUpload env upload file st :
  session (handleFileUpload env upload file st) = session st.
Proof. unfold handleFileUpload. session_solve. Qed.

Lemma session_handleSendMessage env upload st :
  session (handleSendMessage env upload st) = session st.
Proof.
  unfold handleSendMessage.
  destruct (currentUser st) eqn:Hc, (selectedUser st) eqn:Hs; session_solve;
    apply session_handleFileUpload.
Qed.

Lemma session_handleEditMessage env api messageId st :
  session (handleEditMessage env api messageId st) = session st.
Proof. unfold handleEditMessage, editMessageViaAPI. destruct api; session_solve. Qed.

Lemma session_handleDeleteMessage env confirmed api messageId st :
  session (handleDeleteMessage env confirmed api messageId st) = session st.
Proof. unfold handleDeleteMessage, deleteMessageViaAPI. destruct api; session_solve. Qed.

Lemma session_pollTick st : session (pollTick st) = session st.
Proof. unfold pollTick. session_solve. Qed.

Lemma session_reconnectTimer env st : session (reconnectTimer env st) = session st.
Proof. unfold reconnectTimer. session_solve. Qed.

Lemma session_onerror st : session (onerror st) = session st.
Proof. unfold onerror. session_solve. Qed.


Ltac session_close :=
  repeat match goal with |- _ /\ _ => split end; eauto 6.

Lemma sessionStep_same st st' : session st' = session st -> sessionStep st st'.
Proof.
  unfold session. intros [= Hc Hs Hu Ht Ha]. unfold sessionStep. session_close.
Qed.

Lemma sessionStep_currentUserLoaded r st : sessionStep st (currentUserLoaded r st).
Proof.
  unfold currentUserLoaded, invalidUserData, sessionStep.
  destruct r as [[user|v]|status detail]; cbn; [|session_close..].
  destruct (isValidUUID user@."id") eqn:Hv; cbn; session_close.
Qed.

Lemma sessionStep_usersFetched r st : sessionStep st (usersFetched r st).
Proof.
  unfold usersFetched, usersFailed, sessionStep.
  destruct r as [[data|]|status detail]; cbn; [session_close| |];
    destruct (bool_decide _); cbn; session_close.
Qed.

Lemma sessionStep_messagesFetched r st n : sessionStep st (fst (messagesFetched r st n)).
Proof.
  unfold messagesFetched, messagesFailed, fetchMessagesDone, sessionStep.
  destruct r as [[data|]|status detail]; cbn; [session_close| |];
    repeat (destruct (bool_decide _); cbn; [session_close|]); session_close.
Qed.

Lemma sessionStep_selectUser user st : sessionStep st (selectUser user st).
Proof.
  unfold selectUser, sessionStep.
  destruct (isValidUUID user@."id") eqn:Hv; cbn; session_close.
Qed.

Lemma sessionStep_handleLogout st : sessionStep st (handleLogout st).
Proof. unfold handleLogout, sessionStep. cbn. destruct (ws st); cbn; session_close. Qed.

Lemma sessionStep_transportOpen st : sessionStep st (transportOpen st).
Proof.
  unfold transportOpen, onopen, sessionStep. cbn.
  destruct (token st) as [t|] eqn:Ht; [destruct (String.eqb t "")|]; cbn; session_close.
Qed.

Lemma sessionStep_onclose st : sessionStep st (onclose st).
Proof.
  unfold onclose, sessionStep. cbn.
  destruct (Z.ltb_spec (reconnectAttempts st) 5); cbn; session_close.
Qed.

Lemma sessionStep_onmessage env raw st : sessionStep st (onmessage env raw st).
Proof.
  unfold onmessage. destruct raw as [data|]; [|apply sessionStep_same; reflexivity].
  cbv zeta.
  destruct (Js.not data@."type"); [apply sessionStep_same; reflexivity|].
  destruct (data@."type" === Str "message").
  { apply sessionStep_same. unfold onMessageFrame. session_solve. }
  destruct (data@."type" === Str "edit"); [apply sessionStep_same; session_solve|].
  destruct (data@."type" === Str "delete"); [apply sessionStep_same; session_solve|].
  destruct (data@."type" === Str "user_status").
  { unfold sessionStep. cbn. session_close. }
  destruct (data@."type" === Str "connection"); [apply sessionStep_same; reflexivity|].
  destruct (data@."type" === Str "error"); [|apply sessionStep_same; reflexivity].
  unfold onErrorFrame, onmessageCatch, sessionStep.
  destruct (data@."error") as [| |b|s]; [cbn; session_close..|].
  destruct (Text.includes "Invalid token" s || Text.includes "User not found" s);
    cbn; session_close.
Qed.

Lemma sessionStep_step env e st : sessionStep st (step env e st).
Proof.
  destruct e; cbn [step].
  - apply sessionStep_currentUserLoaded.
  - apply sessionStep_usersFetched.
  - apply sessionStep_messagesFetched.
  - apply sessionStep_selectUser.
  - apply sessionStep_same. reflexivity.
  - apply sessionStep_same. reflexivity.
  - apply sessionStep_same. rewrite session_handleFileUpload. reflexivity.
  - apply sessionStep_same, session_handleSendMessage.
  - apply sessionStep_same, session_handleEditMessage.
  - apply sessionStep_same. reflexivity.
  - apply sessionStep_same, session_handleDeleteMessage.
  - apply sessionStep_same. reflexivity.
  - apply sessionStep_handleLogout.
  - apply sessionStep_same. destruct (isNull (currentUser st)); [reflexivity|].
    apply session_connectWebSocket.
  - apply sessionStep_transportOpen.
  - apply sessionStep_same, session_onerror.
  - pose proof (sessionStep_onclose (set_ws (Some CLOSED) st)) as H. exact H.
  - apply sessionStep_onmessage.
  - apply sessionStep_same, session_reconnectTimer.
  - apply sessionStep_same, session_pollTick.
Qed.


(** ** Invariants of a run *)

Lemma run_cons ee events st : run (ee :: events) st = run events (step ee.1 ee.2 st).
Proof. reflexivity. Qed.

Lemma run_invariant (P : State -> Prop) :
  (forall env e st, P st -> P (step env e st)) ->
  forall events st, P st -> P (run events st).
Proof.
  intros Hstep events. induction events as [|[env e] events IH]; intros st Hst.
  - exact Hst.
  - rewrite run_cons. apply IH, Hstep, Hst.
Qed.

Lemma applyStatus_valid data us :
  Forall (fun u : obj => isValidUUID u@."id" = true) us ->
  Forall (fun u : obj => isValidUUID u@."id" = true) (applyStatus data us).
Proof.
  unfold applyStatus. intros H. apply Forall_forall. intros u' Hin.
  apply list_elem_of_In, in_map_iff in Hin as (u & <- & Hu).
  rewrite Forall_forall in H. specialize (H u (proj2 (list_elem_of_In _ _) Hu)).
  destruct (u@."id" === data@."user_id"); [|exact H].
  rewrite get_spread. exact H.
Qed.

Lemma filter_valid (data : list obj) :
  Forall (fun u : obj => isValidUUID u@."id" = true)
    (List.filter (fun u : obj => isValidUUID u@."id") data).
Proof.
  apply Forall_forall. intros u Hin.
  apply list_elem_of_In, filter_In in Hin as [_ Hv]. exact Hv.
Qed.

Lemma validUsers_step env e st : validUsers st -> validUsers (step env e st).
Proof.
  intros (Hc & Hs & Hu).
  destruct (sessionStep_step env e st) as (_ & Hc' & Hs' & Hu' & _).
  split; [|split].
  - intros c Heq. destruct Hc' as [Hsame | (u & Hv & Hnew)].
    + apply Hc. congruence.
    + congruence.
  - intros s Heq. destruct Hs' as [Hsame | (u & Hv & Hnew)].
    + apply Hs. congruence.
    + congruence.
  - destruct Hu' as [-> | [[data ->] | [data ->]]].
    + exact Hu.
    + apply filter_valid.
    + apply applyStatus_valid, Hu.
Qed.

Lemma validUsers_mounted tok : validUsers (mounted tok).
Proof. split; [|split]; [discriminate | discriminate | constructor]. Qed.

(** X1.  In every state a mounted component can reach, whatever the
    server replies and the user does, the current user, the selected
    user and every user of the roster have an identifier that matches
    the UUID pattern. *)
Theorem users_always_valid (tok : option string) (events : list (Env * Event)) :
  validUsers (run events (mounted tok)).
Proof.
  apply (run_invariant validUsers validUsers_step), validUsers_mounted.
Qed.

(** X2.  So the identifier check of [fetchMessages] (line 150) never
    fires: in every reachable state with a current and a selected user,
    [fetchMessages] issues the request, for exactly their two identifiers,
    and sets no error. *)
Theorem fetchMessages_requests (tok : option string) (events : list (Env * Event))
    (cu su : obj) :
  let st := run events (mounted tok) in
  currentUser st = Some cu ->
  selectedUser st = Some su ->
  fetchMessages st = (consoleLog "Fetching messages for:" st, Some (cu@."id", su@."id")).
Proof.
  intros st Hcu Hsu.
  pose proof (run_invariant validUsers validUsers_step events (mounted tok) (validUsers_mounted tok)) as (Hc & Hs & _).
  unfold fetchMessages. fold st. rewrite Hcu, Hsu.
  rewrite (Hc cu Hcu), (Hs su Hsu). reflexivity.
Qed.


Lemma fetchMessages_requests_witness :
  snd (fetchMessages
         (run [ (clock, UserLoaded (Replied (BodyObject alice)));
                (clock, UserClicked bob) ] (mounted (Some "token")))) =
    Some (alice@."id", bob@."id").
Proof.
  rewrite (fetchMessages_requests (Some "token")
             [ (clock, UserLoaded (Replied (BodyObject alice)));
               (clock, UserClicked bob) ] alice bob);
    [reflexivity | vm_compute; reflexivity | vm_compute; reflexivity].
Defined.

(** X3.  The attempt counter of the reconnection stays between 0 and 5 in
    every reachable state: [onclose] is the only writer that increments
    it, and only below 5. *)
Theorem attempts_always_bounded (tok : option string) (events : list (Env * Event)) :
  (0 <= reconnectAttempts (run events (mounted tok)) <= 5)%Z.
Proof.
  apply (run_invariant (fun st => (0 <= reconnectAttempts st <= 5)%Z)).
  - intros env e st Hst.
    destruct (sessionStep_step env e st) as (_ & _ & _ & _ & [-> | [-> | [Hlt ->]]]); lia.
  - cbn. lia.
Qed.

Lemma token_none_kept (events : list (Env * Event)) (st : State) :
  token (run events st) = token st \/ token (run events st) = None.
Proof.
  revert st. induction events as [|[env e] events IH]; intros st; [left; reflexivity|].
  rewrite run_cons.
  destruct (sessionStep_step env e st) as ([Hsame | Hgone] & _);
    destruct (IH (step env e st)) as [H | H]; cbn [fst snd] in *; rewrite H; auto.
Qed.

(** X4.  The chat page never writes a token: along any run the stored
    token is the one the run started with, or it has been removed; and
    once removed it stays removed. *)
Theorem token_only_removed (events more : list (Env * Event)) (st : State) :
  (token (run events st) = token st \/ token (run events st) = None)
  /\ (token (run events st) = None -> token (run more (run events st)) = None).
Proof.
  split; [apply token_none_kept|].
  intros Hnone. destruct (token_none_kept more (run events st)) as [H | H]; congruence.
Qed.

(** X5.  After a logout nothing authenticates again: whatever happens
    next, a socket that opens is closed at once without any frame being
    sent on it, and the page is sent back to "/". *)
Theorem no_auth_after_logout (events : list (Env * Event)) (st0 : State) :
  let st := run events (handleLogout st0) in
  token st = None
  /\ sent (trace (transportOpen st)) = sent (trace st)
  /\ newEffects st (transportOpen st) =
       [ ConsoleLog "WebSocket connected successfully";
         ConsoleError "No token available for WebSocket auth";
         SetError (Str "Session expired. Please log in again.");
         WsClose; Navigate "/" ].
Proof.
  intros st.
  assert (Ht : token st = None).
  { destruct (token_none_kept events (handleLogout st0)) as [H | H]; [|exact H].
    unfold st. rewrite H. unfold handleLogout. cbn. destruct (ws st0); reflexivity. }
  split; [exact Ht|].
  unfold transportOpen, onopen. cbn. rewrite Ht. cbn. split.
  - unfold sent. rewrite !omap_app. cbn. rewrite !app_nil_r. reflexivity.
  - apply newEffects_app. cbn. rewrite <- !app_assoc. reflexivity.
Qed.


(** ** Inbound frames: presence and bystanders *)

Lemma bystanders_log m st : bystanders (consoleLog m st) = bystanders st.
Proof.
  unfold bystanders, sent, scheduled. cbn. rewrite !omap_app. cbn.
  rewrite !app_nil_r. reflexivity.
Qed.

Lemma bystanders_warn m st : bystanders (consoleWarn m st) = bystanders st.
Proof.
  unfold bystanders, sent, scheduled. cbn. rewrite !omap_app. cbn.
  rewrite !app_nil_r. reflexivity.
Qed.

Lemma bystanders_err m st : bystanders (consoleError m st) = bystanders st.
Proof.
  unfold bystanders, sent, scheduled. cbn. rewrite !omap_app. cbn.
  rewrite !app_nil_r. reflexivity.
Qed.

Lemma bystanders_setError v st : bystanders (setError v st) = bystanders st.
Proof.
  unfold bystanders, sent, scheduled. cbn. rewrite !omap_app. cbn.
  rewrite !app_nil_r. reflexivity.
Qed.

Lemma bystanders_navigate p st : bystanders (navigate p st) = bystanders st.
Proof.
  unfold bystanders, sent, scheduled. cbn. rewrite !omap_app. cbn.
  rewrite !app_nil_r. reflexivity.
Qed.

Lemma bystanders_removeToken st : bystanders (removeToken st) = bystanders st.
Proof.
  unfold bystanders, sent, scheduled. cbn. rewrite !omap_app. cbn.
  rewrite !app_nil_r. reflexivity.
Qed.

Lemma bystanders_setUsers f st : bystanders (setUsers f st) = bystanders st.
Proof.
  unfold bystanders, sent, scheduled. cbn. rewrite !omap_app. cbn.
  rewrite !app_nil_r. reflexivity.
Qed.

Lemma bystanders_setMessages f st : bystanders (setMessages f st) = bystanders st.
Proof.
  unfold bystanders, sent, scheduled, setMessages.
  destruct (f (messages st)); cbn; rewrite ?omap_app; cbn; rewrite ?app_nil_r;
    rewrite ?omap_app; cbn; rewrite ?app_nil_r; reflexivity.
Qed.

Create Rewrite HintDb bystanders_db.

#[local] Hint Rewrite bystanders_log bystanders_warn bystanders_err bystanders_setError
  bystanders_navigate bystanders_removeToken bystanders_setUsers bystanders_setMessages
  : bystanders_db.

Ltac bystanders_solve :=
  repeat first
    [ progress autorewrite with bystanders_db
    | progress cbv beta iota zeta
    | match goal with
      | |- context [bystanders (if ?b then _ else _)] => destruct b
      | |- context [bystanders (match ?x with _ => _ end)] => destruct x
      end ];
  try reflexivity.

Lemma bystanders_onmessage env raw st : bystanders (onmessage env raw st) = bystanders st.
Proof.
  unfold onmessage, onMessageFrame, onErrorFrame, onmessageCatch. bystanders_solve.
Qed.

(** X6.  An inbound frame, of any kind and however malformed, never
    sends anything and never touches the draft, the edit in progress, the
    selected files, the socket, the attempt counter, the connection
    status or the current and selected user.  It changes the message list
    only if its type is "message", "edit" or "delete", the roster only if
    its type is "user_status", and the stored token only if its type is
    "error". *)
Theorem inbound_frame_scope (env : Env) (raw : option obj) (st : State) :
  let st' := onmessage env raw st in
  bystanders st' = bystanders st
  /\ (messages st' <> messages st ->
        exists data, raw = Some data
          /\ (data@."type" = Str "message" \/ data@."type" = Str "edit"
              \/ data@."type" = Str "delete"))
  /\ (users st' <> users st ->
        exists data, raw = Some data /\ data@."type" = Str "user_status")
  /\ (token st' <> token st ->
        exists data, raw = Some data /\ data@."type" = Str "error").
Proof.
  intros st'. subst st'. split; [apply bystanders_onmessage|].
  destruct raw as [data|]; [|repeat split; intros H; exfalso; apply H; reflexivity].
  unfold onmessage. cbv zeta.
  destruct (Js.not data@."type");
    [repeat split; intros H; exfalso; apply H; reflexivity|].
  destruct (data@."type" === Str "message") eqn:E1.
  { apply seq_true in E1. split; [eauto|].
    split; intros H; exfalso; apply H; unfold onMessageFrame;
      repeat match goal with |- context [if ?b then _ else _] => destruct b end;
      try reflexivity; unfold setMessages; destruct (mergeMessage _ _ _ _); reflexivity. }
  destruct (data@."type" === Str "edit") eqn:E2.
  { apply seq_true in E2. split; [eauto 6|].
    split; intros H; exfalso; apply H; reflexivity. }
  destruct (data@."type" === Str "delete") eqn:E3.
  { apply seq_true in E3. split; [eauto 6|].
    split; intros H; exfalso; apply H; reflexivity. }
  destruct (data@."type" === Str "user_status") eqn:E4.
  { apply seq_true in E4. split; [intros H; exfalso; apply H; reflexivity|].
    split; [eauto|]. intros H; exfalso; apply H; reflexivity. }
  destruct (data@."type" === Str "connection") eqn:E5;
    [repeat split; intros H; exfalso; apply H; reflexivity|].
  destruct (data@."type" === Str "error") eqn:E6;
    [|repeat split; intros H; exfalso; apply H; reflexivity].
  apply seq_true in E6.
  split; [|split]; [| |eauto]; intros H; exfalso; apply H; unfold onErrorFrame;
    destruct (data@."error"); try reflexivity;
    match goal with |- context [if ?b then _ else _] => destruct b end; reflexivity.
Qed.

Lemma applyStatus_lookup data us i (u : obj) :
  us !! i = Some u ->
  applyStatus data us !! i =
    Some (if u@."id" === data@."user_id"
          then spread u [ ("is_online", data@."is_online") ] else u).
Proof. intros H. unfold applyStatus. rewrite list_lookup_fmap, H. reflexivity. Qed.

(** X7.  A presence frame never adds or removes a user and never changes
    an identifier: the roster keeps its length and, position by position,
    its identifiers; the users with the frame's [user_id] get the frame's
    [is_online] and keep every other property, the others are untouched;
    with no such user the roster is unchanged.  The selected user's own
    record, the messages, the token and the error text are not touched. *)
Theorem presence_frame (env : Env) (data : obj) (st : State) :
  data@."type" = Str "user_status" ->
  let st' := onmessage env (Some data) st in
  map (fun u : obj => u@."id") (users st') = map (fun u : obj => u@."id") (users st)
  /\ (forall i (u : obj), users st !! i = Some u ->
        exists u' : obj,
          users st' !! i = Some u'
          /\ if u@."id" === data@."user_id"
             then u'@."is_online" = data@."is_online"
                  /\ forall k, k <> "is_online" -> u' !! k = u !! k
             else u' = u)
  /\ (Forall (fun u : obj => u@."id" <> data@."user_id") (users st) ->
        users st' = users st)
  /\ selectedUser st' = selectedUser st
  /\ messages st' = messages st
  /\ token st' = token st
  /\ error st' = error st.
Proof.
  intros Ht st'. subst st'. unfold onmessage. rewrite Ht. rewrite !seq_str.
  cbn -[applyStatus].
  split; [|split; [|split; [|repeat split]]].
  - unfold applyStatus. rewrite map_map. apply map_ext. intros u.
    destruct (u@."id" === data@."user_id"); [|reflexivity].
    rewrite get_spread. reflexivity.
  - intros i u Hi. rewrite (applyStatus_lookup data _ i u Hi).
    eexists. split; [reflexivity|].
    destruct (u@."id" === data@."user_id"); [|reflexivity].
    split; [rewrite get_spread; reflexivity|].
    intros k Hk. rewrite lookup_spread. cbn [lastProp].
    apply String.eqb_neq in Hk. rewrite String.eqb_sym in Hk. rewrite Hk. reflexivity.
  - intros Hnone. unfold applyStatus. apply map_id_on.
    eapply Forall_impl; [exact Hnone|]. cbn. intros u Hu.
    apply seq_false in Hu. rewrite Hu. reflexivity.
Qed.


Lemma presence_frame_witness :
  map (fun u : obj => u@."id") (users (onmessage clock (Some bobOnline) (chatting "" []))) =
    [ bob@."id" ]
  /\ users (onmessage clock (Some carolOnline) (chatting "" [])) = [ bob ].
Proof.
  split.
  - exact (proj1 (presence_frame clock bobOnline (chatting "" []) eq_refl)).
  - destruct (presence_frame clock carolOnline (chatting "" []) eq_refl)
      as (_ & _ & Hnone & _).
    apply Hnone. repeat constructor. vm_compute. discriminate.
Defined.

(** ** The socket's life *)

Lemma scheduled_transportOpen st :
  scheduled (trace (transportOpen st)) = scheduled (trace st).
Proof.
  unfold transportOpen, onopen, scheduled. cbn.
  destruct (token st) as [t|]; [destruct (String.eqb t "")|]; cbn;
    rewrite !omap_app; cbn; rewrite !app_nil_r; reflexivity.
Qed.

(** X8.  When a socket opens and a token is stored, exactly one frame is
    sent on it: the "auth" frame carrying that token; the attempt counter
    is back at 0, the status is "connected" and the token is kept.  With
    no token (or an empty one) nothing is sent, the socket is closed and
    the page navigates to "/", yet the status has been set to "connected"
    and the counter to 0 all the same. *)
Theorem open_authenticates (st : State) :
  let st' := transportOpen st in
  reconnectAttempts st' = 0%Z
  /\ connectionStatus st' = "connected"
  /\ token st' = token st
  /\ messages st' = messages st
  /\ (forall t, token st = Some t -> t <> "" ->
        newEffects st st' =
          [ ConsoleLog "WebSocket connected successfully";
            ConsoleLog "Sending auth token:";
            WsSend (literal [ ("type", Str "auth"); ("token", Str t) ]) ]
        /\ ws st' = Some OPEN)
  /\ (hasToken st = false ->
        sent (trace st') = sent (trace st)
        /\ ws st' = Some CLOSING
        /\ newEffects st st' =
             [ ConsoleLog "WebSocket connected successfully";
               ConsoleError "No token available for WebSocket auth";
               SetError (Str "Session expired. Please log in again.");
               WsClose; Navigate "/" ]).
Proof.
  intros st'. subst st'. unfold transportOpen, onopen, hasToken. cbn.
  destruct (token st) as [t|] eqn:Ht; [destruct (String.eqb_spec t "")|]; cbn;
    (split; [reflexivity|]); (split; [reflexivity|]); (split; [exact Ht|]);
    (split; [reflexivity|]); split.
  - intros t' [= <-] Hne. contradiction.
  - intros _. split; [unfold sent; rewrite !omap_app; cbn; rewrite !app_nil_r; reflexivity|].
    split; [reflexivity|]. apply newEffects_app. cbn. rewrite <- !app_assoc. reflexivity.
  - intros t' [= <-] _. split; [|reflexivity].
    apply newEffects_app. cbn. rewrite <- !app_assoc. reflexivity.
  - discriminate.
  - discriminate.
  - intros _. split; [unfold sent; rewrite !omap_app; cbn; rewrite !app_nil_r; reflexivity|].
    split; [reflexivity|]. apply newEffects_app. cbn. rewrite <- !app_assoc. reflexivity.
Qed.

Lemma socketsMade_app l1 l2 : socketsMade (l1 ++ l2) = socketsMade l1 + socketsMade l2.
Proof. unfold socketsMade. rewrite List.filter_app, length_app. reflexivity. Qed.

(** X9.  [connectWebSocket] constructs no socket while one is open or
    while there is no current user: it only logs.  Otherwise every call
    constructs one, also while the previous socket is still connecting:
    [n] calls in a row leave [n] more sockets made. *)
Theorem connect_guard (env : Env) (st : State) :
  (ws st = Some OPEN \/ currentUser st = None ->
     connectWebSocket env st =
       consoleLog "Skipping WebSocket connection: already open or no currentUser" st)
  /\ (forall cu, currentUser st = Some cu -> ws st <> Some OPEN -> wsCtorOk env = true ->
        forall n,
          socketsMade (trace (Nat.iter n (connectWebSocket env) st)) =
            socketsMade (trace st) + n
          /\ (0 < n -> ws (Nat.iter n (connectWebSocket env) st) = Some CONNECTING)).
Proof.
  split.
  - intros [Hopen | Hnone]; unfold connectWebSocket.
    + rewrite (wsOpen_true _ Hopen), orb_true_r. reflexivity.
    + rewrite Hnone. reflexivity.
  - intros cu Hcu Hws Hok.
    assert (Hone : forall s, currentUser s = Some cu -> ws s <> Some OPEN ->
              currentUser (connectWebSocket env s) = Some cu
              /\ ws (connectWebSocket env s) = Some CONNECTING
              /\ socketsMade (trace (connectWebSocket env s)) = S (socketsMade (trace s))).
    { intros s Hc Hw. unfold connectWebSocket.
      rewrite Hc, (wsOpen_false _ Hw), Hok. cbn -[socketsMade].
      split; [exact Hc|]. split; [reflexivity|].
      rewrite !socketsMade_app.
      change (socketsMade [WsNew]) with 1.
      change (socketsMade [ConsoleLog "Initiating WebSocket connection to:"]) with 0.
      lia. }
    intros n. induction n as [|n [IHn IHws]].
    + split; [cbn; lia | lia].
    + rewrite Nat.iter_succ.
      assert (Hc : currentUser (Nat.iter n (connectWebSocket env) st) = Some cu
                   /\ ws (Nat.iter n (connectWebSocket env) st) <> Some OPEN).
      { clear IHn IHws. induction n as [|n [IHc IHw]]; [split; assumption|].
        rewrite Nat.iter_succ. destruct (Hone _ IHc IHw) as (Hc' & Hw' & _).
        split; [exact Hc' | rewrite Hw'; discriminate]. }
      destruct Hc as [Hc Hw]. destruct (Hone _ Hc Hw) as (_ & Hw' & Hs).
      split; [rewrite Hs, IHn; lia | intros _; exact Hw'].
Qed.

Lemma connect_guard_witness :
  socketsMade
    (trace (Nat.iter 3 (connectWebSocket clock) offlineDraft)) = 3.
Proof.
  destruct (connect_guard clock offlineDraft) as [_ H].
  apply (H alice eq_refl ltac:(discriminate) eq_refl 3).
Defined.

(** X10.  The give-up after five attempts only counts attempts that never
    open.  A socket that opens resets the counter, so a connection that
    opens and drops again is retried after 2000 ms every time, without
    end, token or no token. *)
Theorem open_restores_retries (env : Env) (st : State) (n : nat) :
  let cycle := fun s => transportFailure env (transportOpen s) in
  scheduled (trace (Nat.iter n cycle st)) =
    (scheduled (trace st) ++ repeat 2000%Z n)%list.
Proof.
  intros cycle. induction n as [|n IH].
  - cbn. rewrite app_nil_r. reflexivity.
  - rewrite Nat.iter_succ. unfold cycle at 1.
    set (s := Nat.iter n cycle st) in *.
    assert (H0 : reconnectAttempts (transportOpen s) = 0%Z).
    { unfold transportOpen, onopen. cbn.
      destruct (token s) as [t|]; [destruct (String.eqb t "")|]; reflexivity. }
    destruct (transportFailure_retry env (transportOpen s)) as [_ Hs]; [lia|].
    rewrite Hs, H0, scheduled_transportOpen, IH.
    rewrite <- app_assoc. f_equal.
    change [reconnectDelay (0 + 1)] with (repeat 2000%Z 1).
    rewrite <- repeat_app. f_equal. lia.
Qed.


(** ** Local delete and edit *)

Lemma filter_filter_same {A} (f : A -> bool) (l : list A) :
  List.filter f (List.filter f l) = List.filter f l.
Proof.
  induction l as [|x l IH]; cbn; [reflexivity|].
  destruct (f x) eqn:Hx; cbn; rewrite ?Hx, IH; reflexivity.
Qed.

Lemma filter_none_left (messageId : value) (l : list obj) :
  Forall (fun m : obj => m@."message_id" <> messageId)
    (List.filter (fun m : obj => negb (m@."message_id" === messageId)) l).
Proof.
  apply Forall_forall. intros m Hin.
  apply list_elem_of_In, filter_In in Hin as [_ Hm].
  apply negb_true_iff, seq_false in Hm. exact Hm.
Qed.

Lemma delete_intent_messages env api messageId st :
  messages (handleDeleteMessage env true api messageId st) =
    List.filter (fun m : obj => negb (m@."message_id" === messageId)) (messages st).
Proof.
  unfold handleDeleteMessage, deleteMessageViaAPI, setMessages.
  cbn -[connectWebSocket List.filter].
  destruct (wsOpen _); [reflexivity|]. destruct api; cbn -[connectWebSocket List.filter].
  - reflexivity.
  - match goal with
    | |- context [connectWebSocket env ?s] =>
        destruct (connectWebSocket_frame env s) as (-> & _)
    end.
    reflexivity.
Qed.

(** X11.  A delete the user does not confirm changes nothing at all.  A
    confirmed delete removes, in every path, the entries with that
    [message_id] and only those, keeping the order of the rest.  With the
    socket open it then sends exactly one "delete" frame.  With the socket
    not open it sends nothing and issues the DELETE request; when that
    request fails the entry is not put back: the list stays without it, a
    fetch is requested and [connectWebSocket] is called. *)
Theorem delete_intent (env : Env) (api : Rest) (messageId : value) (st : State) :
  handleDeleteMessage env false api messageId st = st
  /\ let st' := handleDeleteMessage env true api messageId st in
     messages st' =
       List.filter (fun m : obj => negb (m@."message_id" === messageId)) (messages st)
     /\ Forall (fun m : obj => m@."message_id" <> messageId) (messages st')
     /\ sublist (messages st') (messages st)
     /\ (ws st = Some OPEN ->
           newEffects st st' =
             [ SetMessages; ConsoleLog "Sending delete message via WebSocket:";
               WsSend (deleteFrame messageId) ])
     /\ (ws st <> Some OPEN ->
           sent (trace st') = sent (trace st)
           /\ exists rest,
                newEffects st st' =
                  ([ SetMessages;
                     ConsoleWarn "WebSocket not connected, using API fallback for delete";
                     SetError (Str "Connection lost. Deleting via API...");
                     HttpDelete messageId ] ++ rest)%list
                /\ (forall detail, api = RestFail detail -> In FetchMessages rest)).
Proof.
  split; [reflexivity|]. cbv zeta.
  pose proof (delete_intent_messages env api messageId st) as Hm.
  split; [exact Hm|]. rewrite Hm.
  split; [apply filter_none_left|]. split; [apply sublist_filter_bool|].
  unfold handleDeleteMessage, deleteMessageViaAPI, setMessages.
  cbn -[connectWebSocket List.filter sent]. split.
  - intros Hws. replace (wsOpen _) with true by (symmetry; apply wsOpen_true; exact Hws).
    apply newEffects_app. cbn. rewrite <- !app_assoc. reflexivity.
  - intros Hws. replace (wsOpen _) with false by (symmetry; apply wsOpen_false; exact Hws).
    destruct api as [data|detail]; cbn -[connectWebSocket List.filter sent].
    + split; [unfold sent; cbn; rewrite !omap_app; cbn; rewrite !app_nil_r; reflexivity|].
      eexists. split; [|discriminate].
      apply newEffects_app. cbn. rewrite <- !app_assoc. reflexivity.
    + match goal with
      | |- context [connectWebSocket env ?s] =>
          destruct (connectWebSocket_frame env s) as (_ & _ & Hs);
          destruct (connectWebSocket_trace env s) as [l Ht]
      end.
      rewrite Hs. split.
      * unfold sent. cbn. rewrite !omap_app. cbn. rewrite !app_nil_r. reflexivity.
      * eexists. split.
        -- apply newEffects_app. rewrite Ht. cbn. rewrite <- !app_assoc. reflexivity.
        -- intros _ _. cbn. rewrite ?in_app_iff. cbn. auto 10.
Qed.

(** X12.  The server's echo of a local delete is harmless: after a
    confirmed delete of [messageId], an inbound delete frame for the same
    [message_id] leaves the message list exactly as the local delete left
    it. *)
Theorem delete_echo_noop (env env' : Env) (api : Rest) (messageId : value)
    (data : obj) (st : State) :
  data@."type" = Str "delete" ->
  data@."message_id" = messageId ->
  let st' := handleDeleteMessage env true api messageId st in
  messages (onmessage env' (Some data) st') = messages st'.
Proof.
  intros Ht Hid st'. subst st'.
  pose proof (delete_intent_messages env api messageId st) as Hm.
  unfold onmessage. rewrite Ht, !seq_str. cbn -[applyDelete handleDeleteMessage].
  unfold applyDelete. rewrite Hid, Hm. apply filter_filter_same.
Qed.


Lemma optimisticEdit_lookup env messageId text prev i (m : obj) :
  prev !! i = Some m ->
  optimisticEdit env messageId text prev !! i =
    Some (if m@."message_id" === messageId then
            spread m [ ("text", Str (Text.trim text));
                       ("edited", Bool true);
                       ("edited_at", Str (dateISO env)) ]
          else m).
Proof. intros H. unfold optimisticEdit. rewrite list_lookup_fmap, H. reflexivity. Qed.

Lemma handleEditMessage_open env api messageId st :
  Text.trim (editText st) <> "" ->
  ws st = Some OPEN ->
  handleEditMessage env api messageId st =
    set_editText ""
      (set_editingMessageId Null
         (wsSend (editFrame messageId (editText st))
            (consoleLog "Sending edit message via WebSocket:"
               (setMessages
                  (fun prev => Some (optimisticEdit env messageId (editText st) prev))
                  st)))).
Proof.
  intros Ht Hws. unfold handleEditMessage. rewrite (not_str_nonempty _ Ht).
  cbv zeta. replace (wsOpen _) with true by (symmetry; apply wsOpen_true; exact Hws).
  reflexivity.
Qed.

(** X13.  An accepted edit with the socket open rewrites, in place, the
    entries with that [message_id] to the trimmed text and [edited:
    true], leaves the others untouched, sends exactly one "edit" frame
    carrying the same trimmed text, and closes the edit box.  The frame is
    sent even when no entry has that [message_id]. *)
Theorem edit_intent_open (env : Env) (api : Rest) (messageId : value) (st : State) :
  Text.trim (editText st) <> "" ->
  ws st = Some OPEN ->
  let st' := handleEditMessage env api messageId st in
  newEffects st st' =
    [ SetMessages; ConsoleLog "Sending edit message via WebSocket:";
      WsSend (editFrame messageId (editText st)) ]
  /\ (editFrame messageId (editText st))@."text" = Str (Text.trim (editText st))
  /\ editingMessageId st' = Null
  /\ editText st' = ""
  /\ length (messages st') = length (messages st)
  /\ (forall i (m : obj), messages st !! i = Some m ->
        exists m' : obj,
          messages st' !! i = Some m'
          /\ if m@."message_id" === messageId
             then m'@."text" = Str (Text.trim (editText st))
                  /\ m'@."edited" = Bool true
                  /\ forall k, k <> "text" -> k <> "edited" -> k <> "edited_at" ->
                       m' !! k = m !! k
             else m' = m).
Proof.
  intros Ht Hws st'. subst st'. rewrite (handleEditMessage_open _ _ _ _ Ht Hws).
  cbn -[optimisticEdit editFrame].
  split; [apply newEffects_app; cbn -[editFrame]; rewrite <- !app_assoc; reflexivity|].
  split; [reflexivity|]. split; [reflexivity|]. split; [reflexivity|].
  split; [unfold optimisticEdit; apply length_map|].
  intros i m Hi. rewrite (optimisticEdit_lookup _ _ _ _ _ _ Hi).
  eexists. split; [reflexivity|].
  destruct (m@."message_id" === messageId); [|reflexivity].
  split; [rewrite get_spread; reflexivity|].
  split; [rewrite get_spread; reflexivity|].
  intros k H1 H2 H3. rewrite lookup_spread. cbn [lastProp].
  apply String.eqb_neq in H1, H2, H3.
  rewrite String.eqb_sym in H1. rewrite String.eqb_sym in H2.
  rewrite String.eqb_sym in H3. rewrite H1, H2, H3. reflexivity.
Qed.

(** X14.  The server's echo of a local edit changes nothing the local
    edit set: after an accepted edit with the socket open, an inbound
    "edit" frame for the same [message_id] with the text that was sent
    leaves every property of every entry as it was, [edited_at] apart. *)
Theorem edit_echo_keeps (env env' : Env) (api : Rest) (messageId : value)
    (data : obj) (st : State) :
  Text.trim (editText st) <> "" ->
  ws st = Some OPEN ->
  data@."type" = Str "edit" ->
  data@."message_id" = messageId ->
  data@."text" = Str (Text.trim (editText st)) ->
  let st' := handleEditMessage env api messageId st in
  Forall2 (fun a b : obj => forall k, k <> "edited_at" -> a@.k = b@.k)
    (messages st') (messages (onmessage env' (Some data) st')).
Proof.
  intros Ht Hws Hty Hid Htx st'. subst st'.
  rewrite (handleEditMessage_open _ _ _ _ Ht Hws).
  unfold onmessage. rewrite Hty, !seq_str. cbn -[optimisticEdit applyEdit editFrame].
  unfold applyEdit, optimisticEdit. rewrite Hid, Htx.
  induction (messages st) as [|m l IH]; cbn [map]; constructor; [|exact IH].
  intros k Hk.
  destruct (m@."message_id" === messageId) eqn:Hm.
  - assert (Hid' : forall ps, lastProp "message_id" ps = None ->
                (spread m ps)@."message_id" = m@."message_id")
      by (intros ps Hp; rewrite get_spread, Hp; reflexivity).
    rewrite Hid' by reflexivity. rewrite Hm.
    rewrite !get_spread. cbn [lastProp].
    apply String.eqb_neq in Hk. rewrite String.eqb_sym in Hk. rewrite Hk.
    destruct (String.eqb "edited" k); [reflexivity|].
    destruct (String.eqb "text" k); reflexivity.
  - rewrite Hm. reflexivity.
Qed.
